(** * AdVantage: the Beeswax log ingestion engine

    A shallow embedding of [backend/internal/ingestion]: the CSV log parser
    [ParseBeeswaxLog] (header resolution, per-row decoding, streaming
    aggregation, derived metrics) and the result store of
    [LogProcessorService] ([storeAnalysisResult], [GetAnalysisResult],
    [IsLogFileProcessed]); and, around them, [ProcessLogFile] of the log
    processor and of the file service ([backend/internal/services]) with the
    lookup of a stored file by id ([backend/internal/storage]).

    Conventions.
    - Go [string] is a byte string: Stdlib [string] (a list of 8-bit [ascii]).
    - Go [int] and [int64] are 64-bit two's complement: [Z] with [wrap64]
      written at every arithmetic operation of the source.
    - Go [float64] is IEEE 754 binary64: the kernel's primitive [float].
    - Go [map[string]T] is [gmap string T]; ranging over a map visits its
      entries in the order of [map_to_list], one of the orders Go may take.
    - The Go standard library functions the source calls ([strconv.ParseInt],
      [strconv.Atoi], [strings.ToUpper], [time.Parse], [time.Time.Format],
      [csv.Reader.Read]) are transcribed from the Go 1.23 library, each
      specialised to the arguments the source passes. [strings.ToUpper] is
      the one for ASCII text; [csv.Reader] is taken at the level of records:
      its input is the list of records and failures it finds in the bytes.
    - [fmt.Printf] of a diagnostic has no effect on any result and is left
      out. *)

From Stdlib Require Import ZArith String Ascii List Bool Lia Floats Uint63.
From stdpp Require Import gmap strings list fin_maps.
Import ListNotations.

Set Warnings "-inexact-float".

Local Open Scope string_scope.
Local Open Scope Z_scope.

(** ** Machine integers and bytes *)

Definition wrap64 (z : Z) : Z := (z + 2^63) mod 2^64 - 2^63.

Definition MaxInt64 : Z := 2^63 - 1.
Definition MinInt64 : Z := - 2^63.

Definition byte_of (c : ascii) : Z := Z.of_N (N_of_ascii c).

Definition isDigitByte (c : ascii) : bool :=
  (48 <=? byte_of c) && (byte_of c <=? 57).

(** [float64(x)] for an [int64] x: the nearest binary64, ties to even.
    [PrimFloat.of_uint63] converts the 63-bit magnitudes; rounding to nearest
    is symmetric, so a negative x is the opposite of its magnitude, and
    -2^63 is a power of two. *)
Definition float64_of_int (x : Z) : float :=
  if 0 <=? x then PrimFloat.of_uint63 (Uint63.of_Z x)
  else if x =? MinInt64 then (-0x1p63)%float
  else PrimFloat.opp (PrimFloat.of_uint63 (Uint63.of_Z (- x))).

(** ** strconv *)

Module strconv.

Inductive NumError := ErrSyntax | ErrRange.

Definition maxUint64 : Z := 2^64 - 1.

(** The digit loop of [ParseUint(s, 10, 64)], [n] the value so far.
    In base 10 a letter is a digit at least the base and an underscore is
    not accepted: both end in the syntax error, as any other byte does.
    The range error is returned as soon as the next digit overflows, before
    the bytes after it are looked at. *)
Fixpoint parseUintLoop (s : string) (n : Z) : Z * option NumError :=
  match s with
  | EmptyString => (n, None)
  | String c rest =>
      if isDigitByte c then
        let d := byte_of c - 48 in
        let cutoff := maxUint64 / 10 + 1 in
        if cutoff <=? n then (maxUint64, Some ErrRange)
        else
          let n10 := (n * 10) mod 2^64 in
          let n1 := (n10 + d) mod 2^64 in
          if (n1 <? n10) || (maxUint64 <? n1) then (maxUint64, Some ErrRange)
          else parseUintLoop rest n1
      else (0, Some ErrSyntax)
  end.

Definition ParseUint (s : string) : Z * option NumError :=
  match s with
  | EmptyString => (0, Some ErrSyntax)
  | _ => parseUintLoop s 0
  end.

(** [ParseInt(s, 10, 64)]. *)
Definition ParseInt (s0 : string) : Z * option NumError :=
  match s0 with
  | EmptyString => (0, Some ErrSyntax)
  | String c rest =>
      let neg := Ascii.eqb c "-" in
      let s := if Ascii.eqb c "+" || neg then rest else s0 in
      match ParseUint s with
      | (_, Some ErrSyntax) => (0, Some ErrSyntax)
      | (un, _) =>
          let cutoff := 2^63 in
          if negb neg && (cutoff <=? un) then (cutoff - 1, Some ErrRange)
          else if neg && (cutoff <? un) then (- cutoff, Some ErrRange)
          else (if neg then wrap64 (- wrap64 un) else wrap64 un, None)
      end
  end.

(** [Atoi(s)] is [ParseInt(s, 10, 0)] converted to [int]; [int] has 64
    bits, so the conversion changes nothing. *)
Definition Atoi (s : string) : Z * option NumError := ParseInt s.

End strconv.

(** ** strings *)

Module strings.

(** [strings.ToUpper] on ASCII text: the bytes a..z are moved to A..Z,
    every other byte is kept. (On text with bytes from 128 up Go maps whole
    runes through the Unicode tables, which are not part of this model.) *)
Definition upperByte (c : ascii) : ascii :=
  if (97 <=? byte_of c) && (byte_of c <=? 122)
  then ascii_of_N (N_of_ascii c - 32) else c.

Fixpoint ToUpper (s : string) : string :=
  match s with
  | EmptyString => EmptyString
  | String c rest => String (upperByte c) (ToUpper rest)
  end.

End strings.

(** ** time *)

Module time.

(** A [time.Time] in UTC, kept as its civil fields. Every value the parser
    builds comes from [time.Date] with fields already in range (a parsed
    cell is range-checked field by field, the sentinels are literals), so
    [Date]'s normalisation is the identity and the fields are the value. *)
Record Time := Date {
  Year : Z; Month : Z; Day : Z;
  Hour : Z; Minute : Z; Second : Z; Nanosecond : Z }.

(** The zero value [Time{}]: January 1, year 1, 00:00:00 UTC. *)
Definition zeroTime : Time := Date 1 1 1 0 0 0 0.

Definition isLeap (year : Z) : bool :=
  (year mod 4 =? 0) && (negb (year mod 100 =? 0) || (year mod 400 =? 0)).

(** [daysBefore[m-1]]: the days of a non-leap year before month [m]. *)
Definition daysBefore (m : Z) : Z :=
  nth (Z.to_nat (m - 1)) [0; 31; 59; 90; 120; 151; 181; 212; 243; 273; 304; 334] 365.

Definition daysIn (m year : Z) : Z :=
  if (m =? 2) && isLeap year then 29 else daysBefore (m + 1) - daysBefore m.

(** Days from January 1 of year 1 to January 1 of [year]. *)
Definition daysSinceYear1 (year : Z) : Z :=
  let y := year - 1 in 365 * y + y / 4 - y / 100 + y / 400.

(** [t.sec()]: seconds since January 1, year 1, 00:00:00 UTC. *)
Definition sec (t : Time) : Z :=
  let d := daysSinceYear1 (Year t) + daysBefore (Month t)
           + (if isLeap (Year t) && (3 <=? Month t) then 1 else 0)
           + (Day t - 1) in
  d * 86400 + Hour t * 3600 + Minute t * 60 + Second t.

Definition IsZero (t : Time) : bool :=
  (sec t =? 0) && (Nanosecond t =? 0).

Definition Before (t u : Time) : bool :=
  (sec t <? sec u) || ((sec t =? sec u) && (Nanosecond t <? Nanosecond u)).

Definition After (t u : Time) : bool :=
  (sec u <? sec t) || ((sec t =? sec u) && (Nanosecond u <? Nanosecond t)).

(** *** Parsing *)

Definition isDigit (s : string) (i : nat) : bool :=
  match String.get i s with
  | Some c => isDigitByte c
  | None => false
  end.

Definition drop (n : nat) (s : string) : string :=
  String.substring n (String.length s - n) s.

Definition commaOrPeriod (c : ascii) : bool :=
  Ascii.eqb c "." || Ascii.eqb c ",".

(** [leadingInt]: the leading decimal digits of [s] and the rest; [None] on
    overflow. [x] is the value so far. *)
Fixpoint leadingInt (s : string) (x : Z) : option (Z * string) :=
  match s with
  | String c rest =>
      if isDigitByte c then
        if 2^63 / 10 <? x then None
        else
          let x' := x * 10 + (byte_of c - 48) in
          if 2^63 <? x' then None else leadingInt rest x'
      else Some (x, s)
  | EmptyString => Some (x, s)
  end.

(** [atoi]: an optional sign, then digits to the end of the string. *)
Definition atoi (s : string) : option Z :=
  let '(neg, s) :=
    match s with
    | String c rest =>
        if Ascii.eqb c "-" then (true, rest)
        else if Ascii.eqb c "+" then (false, rest)
        else (false, s)
    | EmptyString => (false, s)
    end in
  match leadingInt s 0 with
  | Some (q, EmptyString) => Some (if neg then wrap64 (- wrap64 q) else wrap64 q)
  | _ => None
  end.

(** [getnum]: a one- or two-digit number; two digits are required when
    [fixed]. *)
Definition getnum (s : string) (fixed : bool) : option (Z * string) :=
  match s with
  | String c0 rest0 =>
      if isDigitByte c0 then
        match rest0 with
        | String c1 rest1 =>
            if isDigitByte c1
            then Some ((byte_of c0 - 48) * 10 + (byte_of c1 - 48), rest1)
            else if fixed then None else Some (byte_of c0 - 48, rest0)
        | EmptyString => if fixed then None else Some (byte_of c0 - 48, rest0)
        end
      else None
  | EmptyString => None
  end.

Fixpoint cutspace (s : string) : string :=
  match s with
  | String c rest => if Ascii.eqb c " " then cutspace rest else s
  | EmptyString => s
  end.

(** [skip]: remove [prefix] from [value]; a space of the prefix stands for a
    run of spaces of the value. The fuel bounds the loop by the prefix's
    length, which every turn shortens. *)
Fixpoint skipLoop (fuel : nat) (value prefix : string) : option string :=
  match prefix with
  | EmptyString => Some value
  | String p prefix' =>
      match fuel with
      | O => None
      | S fuel =>
          if Ascii.eqb p " " then
            match value with
            | String v _ =>
                if Ascii.eqb v " "
                then skipLoop fuel (cutspace value) (cutspace prefix)
                else None
            | EmptyString => skipLoop fuel (cutspace value) (cutspace prefix)
            end
          else
            match value with
            | String v value' =>
                if Ascii.eqb v p then skipLoop fuel value' prefix' else None
            | EmptyString => None
            end
      end
  end.

Definition skip (value prefix : string) : option string :=
  skipLoop (String.length prefix) value prefix.

(** [parseNanoseconds(value, nbytes)]: [None] on a bad or out-of-range
    fraction. *)
Definition parseNanoseconds (value : string) (nbytes : nat) : option Z :=
  match value with
  | String c _ =>
      if commaOrPeriod c then
        let nbytes := Nat.min nbytes 10 in
        match atoi (String.substring 1 (nbytes - 1) value) with
        | Some ns =>
            if ns <? 0 then None
            else Some (wrap64 (ns * 10 ^ Z.of_nat (10 - nbytes)))
        | None => None
        end
      else None
  | EmptyString => None
  end.

(** The number of leading digits of [s]. *)
Fixpoint digitRun (s : string) : nat :=
  match s with
  | String c rest => if isDigitByte c then S (digitRun rest) else O
  | EmptyString => O
  end.

(** The chunks of a layout. *)
Inductive Std :=
| stdLongYear | stdZeroMonth | stdZeroDay | stdHour
| stdZeroMinute | stdZeroSecond | stdFracSecond0 (digits : nat).

(** A layout as [nextStdChunk] cuts it: the literal prefix before each chunk,
    in order. Both layouts of the source end with their last chunk. *)
Definition Layout := list (string * Std).

(** ["2006-01-02 15:04:05"] *)
Definition layoutSeconds : Layout :=
  [("", stdLongYear); ("-", stdZeroMonth); ("-", stdZeroDay);
   (" ", stdHour); (":", stdZeroMinute); (":", stdZeroSecond)].

(** ["2006-01-02 15:04:05.000"] *)
Definition layoutMillis : Layout :=
  (layoutSeconds ++ [("", stdFracSecond0 3)])%list.

(** One chunk of [parse]'s loop: the new field values and the rest of the
    value, or [None] for either kind of error. [fracNext] says that the next
    chunk of the layout is a fractional second. *)
Definition parseStd (std : Std) (fracNext : bool) (value : string) (t : Time)
  : option (Time * string) :=
  match std with
  | stdLongYear =>
      if (String.length value <? 4)%nat || negb (isDigit value 0) then None
      else
        match atoi (String.substring 0 4 value) with
        | Some y =>
            Some (Date y (Month t) (Day t) (Hour t) (Minute t) (Second t)
                    (Nanosecond t),
                  drop 4 value)
        | None => None
        end
  | stdZeroMonth =>
      match getnum value true with
      | Some (m, value) =>
          if (m <=? 0) || (12 <? m) then None
          else Some (Date (Year t) m (Day t) (Hour t) (Minute t) (Second t) (Nanosecond t), value)
      | None => None
      end
  | stdZeroDay =>
      match getnum value true with
      | Some (d, value) =>
          Some (Date (Year t) (Month t) d (Hour t) (Minute t) (Second t) (Nanosecond t), value)
      | None => None
      end
  | stdHour =>
      match getnum value false with
      | Some (h, value) =>
          if (h <? 0) || (24 <=? h) then None
          else Some (Date (Year t) (Month t) (Day t) h (Minute t) (Second t) (Nanosecond t), value)
      | None => None
      end
  | stdZeroMinute =>
      match getnum value true with
      | Some (m, value) =>
          if (m <? 0) || (60 <=? m) then None
          else Some (Date (Year t) (Month t) (Day t) (Hour t) m (Second t) (Nanosecond t), value)
      | None => None
      end
  | stdZeroSecond =>
      match getnum value true with
      | Some (s, value) =>
          if (s <? 0) || (60 <=? s) then None
          else
            let t := Date (Year t) (Month t) (Day t) (Hour t) (Minute t) s (Nanosecond t) in
            match value with
            | String c0 _ =>
                if commaOrPeriod c0 && isDigit value 1 && negb fracNext then
                  (* a fraction in the input that the layout does not have *)
                  let n := (2 + digitRun (drop 2 value))%nat in
                  match parseNanoseconds value n with
                  | Some ns =>
                      Some (Date (Year t) (Month t) (Day t) (Hour t) (Minute t) s ns, drop n value)
                  | None => None
                  end
                else Some (t, value)
            | EmptyString => Some (t, value)
            end
      | None => None
      end
  | stdFracSecond0 digits =>
      let ndigit := (1 + digits)%nat in
      if (String.length value <? ndigit)%nat then None
      else
        match parseNanoseconds value ndigit with
        | Some ns =>
            Some (Date (Year t) (Month t) (Day t) (Hour t) (Minute t) (Second t) ns,
                  drop ndigit value)
        | None => None
        end
  end.

Definition isFrac (l : Layout) : bool :=
  match l with
  | (_, stdFracSecond0 _) :: _ => true
  | _ => false
  end.

Fixpoint parseChunks (layout : Layout) (value : string) (t : Time)
  : option Time :=
  match layout with
  | [] => match value with EmptyString => Some t | _ => None end
  | (prefix, std) :: layout =>
      match skip value prefix with
      | Some value =>
          match parseStd std (isFrac layout) value t with
          | Some (t, value) => parseChunks layout value t
          | None => None
          end
      | None => None
      end
  end.

Inductive ParseError := errParse.

(** [time.Parse(layout, value)]: the time and [None], or the zero time and
    the error. The fields start as [parse] starts them (month and day unset);
    the day is checked against the month at the end. *)
Definition Parse (layout : Layout) (value : string) : Time * option ParseError :=
  match parseChunks layout value (Date 0 (-1) (-1) 0 0 0 0) with
  | Some t =>
      if (Day t <? 1) || (daysIn (Month t) (Year t) <? Day t)
      then (zeroTime, Some errParse)
      else (t, None)
  | None => (zeroTime, Some errParse)
  end.

(** *** Formatting *)

Definition digitChar (d : Z) : ascii := ascii_of_N (Z.to_N (48 + d mod 10)).

(** [appendInt(b, x, width)] for 0 <= x: the decimal digits of [x], padded
    with zeros to [width]. *)
Fixpoint appendInt (width : nat) (x : Z) (acc : string) : string :=
  match width with
  | O => acc
  | S w => appendInt w (x / 10) (String (digitChar x) acc)
  end.

(** [t.Format("2006-01-02 15")]; years have at most four digits here. *)
Definition FormatHour (t : Time) : string :=
  appendInt 4 (Year t) "" ++ "-" ++ appendInt 2 (Month t) "" ++ "-"
  ++ appendInt 2 (Day t) "" ++ " " ++ appendInt 2 (Hour t) "".

End time.

(** ** encoding/csv *)

Module csv.

(** What the reader meets next in its input: a well-formed record with its
    fields, or a failure (malformed quoting, or an error of the underlying
    [io.Reader]). Empty lines yield nothing and are not part of the list, so
    a record has at least one field. *)
Inductive Item :=
| Row (record : list string)
| Broken (msg : string).

Inductive Error :=
| EOF
| ErrFieldCount
| ErrRead (msg : string).

(** [csv.NewReader] leaves [FieldsPerRecord] at 0: the first record read
    fixes the number of fields every later record must have. *)
Record Reader := mkReader { FieldsPerRecord : Z; input : list Item }.

Definition NewReader (r : list Item) : Reader := mkReader 0 r.

(** [readRecord]'s check of the field count; a record with the wrong count
    is returned together with [ErrFieldCount]. *)
Definition checkFields (fieldsPerRecord : Z) (record : list string)
  : (list string * option Error) * Z :=
  let n := Z.of_nat (List.length record) in
  if 0 <? fieldsPerRecord then
    if negb (n =? fieldsPerRecord)
    then ((record, Some ErrFieldCount), fieldsPerRecord)
    else ((record, None), fieldsPerRecord)
  else if fieldsPerRecord =? 0 then ((record, None), n)
  else ((record, None), fieldsPerRecord).

Definition Read (r : Reader) : (list string * option Error) * Reader :=
  match input r with
  | [] => (([], Some EOF), r)
  | Broken msg :: rest => (([], Some (ErrRead msg)), mkReader (FieldsPerRecord r) rest)
  | Row record :: rest =>
      let '(res, n) := checkFields (FieldsPerRecord r) record in
      (res, mkReader n rest)
  end.

End csv.

(** ** ingestion: the parser *)

Module CampaignMetrics.

Record t := mk {
  Impressions : Z;
  Clicks : Z;
  Conversions : Z;
  Spend : float;
  CTR : float }.

(** The zero value a map lookup yields for an absent key. *)
Definition zero : t := mk 0 0 0 0%float 0%float.

End CampaignMetrics.

Module ingestion.

Record BeeswaxLogSummary := mkSummary {
  TotalRecords : Z;
  TotalImpressions : Z;
  TotalClicks : Z;
  TotalConversions : Z;
  TotalBidAmount : float;
  TotalWinCost : float;
  CTR : float;
  AverageBidPrice : float;
  AverageWinRate : float;
  TimeRange : time.Time * time.Time;
  DeviceBreakdown : gmap string Z;
  BrowserBreakdown : gmap string Z;
  OSBreakdown : gmap string Z;
  GeoBreakdown : gmap string Z;
  HourlyBreakdown : gmap string Z;
  DomainBreakdown : gmap string Z;
  CampaignPerformance : gmap string CampaignMetrics.t }.

Inductive Error :=
| FailedToReadHeader (e : csv.Error)
| RequiredColumnNotFound (col : string)
| ErrorReadingRecord (e : csv.Error).

Definition requiredCols : list string :=
  ["ACCOUNT_ID"; "AUCTION_ID"; "BID_PRICE_MICROS_USD"; "BID_TIME";
   "CAMPAIGN_ID"; "CLEARING_PRICE_MICROS_USD"; "CLICKS"; "CONVERSIONS";
   "CREATIVE_ID"; "DOMAIN"; "GEO_COUNTRY"; "GEO_CITY";
   "PLATFORM_DEVICE_TYPE"; "PLATFORM_BROWSER"; "PLATFORM_OS"; "WIN_COST_MICROS_USD"].

(** [for i, col := range header { colMap[col] = i }] *)
Fixpoint indexHeader (header : list string) (i : Z) (colMap : gmap string Z)
  : gmap string Z :=
  match header with
  | [] => colMap
  | col :: rest => indexHeader rest (i + 1) (<[col := i]> colMap)
  end.

(** The inner loop over [colMap]: the first key, in the order the map is
    ranged over, whose upper-case form is [col]. Go leaves that order
    unspecified; [map_to_list] fixes one. *)
Definition findIgnoringCase (col : string) (colMap : gmap string Z)
  : option (string * Z) :=
  List.find (fun kv => String.eqb (strings.ToUpper (fst kv)) col) (map_to_list colMap).

(** The validation loop over [requiredCols]. *)
Fixpoint resolveColumns (cols : list string) (colMap : gmap string Z)
  : Error + gmap string Z :=
  match cols with
  | [] => inr colMap
  | col :: rest =>
      match colMap !! col with
      | Some _ => resolveColumns rest colMap
      | None =>
          match findIgnoringCase col colMap with
          | Some (_, idx) => resolveColumns rest (<[col := idx]> colMap)
          | None => inl (RequiredColumnNotFound col)
          end
      end
  end.

Definition getValueSafely (colMap : gmap string Z) (record : list string)
  (colName : string) : string :=
  match colMap !! colName with
  | Some idx =>
      if Z.of_nat (List.length record) <=? idx then ""
      else nth (Z.to_nat idx) record ""
  | None => ""
  end.

(** The two attempts at the BID_TIME cell; a failed [time.Parse] leaves the
    zero time in [bidTime]. *)
Definition parseBidTime (bidTimeStr : string) : time.Time :=
  if String.eqb bidTimeStr "" then time.zeroTime
  else
    match time.Parse time.layoutMillis bidTimeStr with
    | (bidTime, None) => bidTime
    | (_, Some _) => fst (time.Parse time.layoutSeconds bidTimeStr)
    end.

(** [m[k]++] *)
Definition incr (k : string) (m : gmap string Z) : gmap string Z :=
  <[k := wrap64 (default 0 (m !! k) + 1)]> m.

Definition incrNonEmpty (k : string) (m : gmap string Z) : gmap string Z :=
  if String.eqb k "" then m else incr k m.

Definition dollars (micros : Z) : float :=
  (float64_of_int micros / 1000000)%float.

Definition updateTimeRange (bidTime : time.Time) (r : time.Time * time.Time)
  : time.Time * time.Time :=
  let r0 := if time.Before bidTime (fst r) then bidTime else fst r in
  let r1 := if time.After bidTime (snd r) then bidTime else snd r in
  (r0, r1).

Definition updateCampaign (campaignID : string) (clicks conversions winCost : Z)
  (m : gmap string CampaignMetrics.t) : gmap string CampaignMetrics.t :=
  if String.eqb campaignID "" then m
  else
    let campaign := default CampaignMetrics.zero (m !! campaignID) in
    <[campaignID :=
        CampaignMetrics.mk
          (wrap64 (CampaignMetrics.Impressions campaign + 1))
          (wrap64 (CampaignMetrics.Clicks campaign + clicks))
          (wrap64 (CampaignMetrics.Conversions campaign + conversions))
          (CampaignMetrics.Spend campaign + dollars winCost)%float
          (CampaignMetrics.CTR campaign)]> m.

(** The body of the record loop, after a successful [Read]. *)
Definition processRecord (colMap : gmap string Z) (record : list string)
  (summary : BeeswaxLogSummary) : BeeswaxLogSummary :=
  let getValueSafely := getValueSafely colMap record in
  let bidTime := parseBidTime (getValueSafely "BID_TIME") in
  let timed := negb (time.IsZero bidTime) in
  let bidPrice := fst (strconv.ParseInt (getValueSafely "BID_PRICE_MICROS_USD")) in
  let winCost := fst (strconv.ParseInt (getValueSafely "WIN_COST_MICROS_USD")) in
  let clicks := fst (strconv.Atoi (getValueSafely "CLICKS")) in
  let conversions := fst (strconv.Atoi (getValueSafely "CONVERSIONS")) in
  let campaignID := getValueSafely "CAMPAIGN_ID" in
  let domain := getValueSafely "DOMAIN" in
  let country := getValueSafely "GEO_COUNTRY" in
  let deviceType := getValueSafely "PLATFORM_DEVICE_TYPE" in
  let browser := getValueSafely "PLATFORM_BROWSER" in
  let os := getValueSafely "PLATFORM_OS" in
  {| TotalRecords := wrap64 (TotalRecords summary + 1);
     TotalImpressions := wrap64 (TotalImpressions summary + 1);
     TotalClicks := wrap64 (TotalClicks summary + clicks);
     TotalConversions := wrap64 (TotalConversions summary + conversions);
     TotalBidAmount := (TotalBidAmount summary + dollars bidPrice)%float;
     TotalWinCost := (TotalWinCost summary + dollars winCost)%float;
     CTR := CTR summary;
     AverageBidPrice := AverageBidPrice summary;
     AverageWinRate := AverageWinRate summary;
     TimeRange :=
       if timed then updateTimeRange bidTime (TimeRange summary)
       else TimeRange summary;
     DeviceBreakdown := incrNonEmpty deviceType (DeviceBreakdown summary);
     BrowserBreakdown := incrNonEmpty browser (BrowserBreakdown summary);
     OSBreakdown := incrNonEmpty os (OSBreakdown summary);
     GeoBreakdown := incrNonEmpty country (GeoBreakdown summary);
     HourlyBreakdown :=
       if timed then incr (time.FormatHour bidTime) (HourlyBreakdown summary)
       else HourlyBreakdown summary;
     DomainBreakdown := incrNonEmpty domain (DomainBreakdown summary);
     CampaignPerformance :=
       updateCampaign campaignID clicks conversions winCost
         (CampaignPerformance summary) |}.

(** The two sentinels of the time range. *)
Definition farFuture : time.Time := time.Date 9999 1 1 0 0 0 0.
Definition farPast : time.Time := time.Date 1970 1 1 0 0 0 0.

(** The summary before the first record: empty maps, zero counters, and the
    time range at its two sentinels. *)
Definition initialSummary : BeeswaxLogSummary :=
  {| TotalRecords := 0; TotalImpressions := 0; TotalClicks := 0;
     TotalConversions := 0; TotalBidAmount := 0; TotalWinCost := 0;
     CTR := 0; AverageBidPrice := 0; AverageWinRate := 0;
     TimeRange := (farFuture, farPast);
     DeviceBreakdown := ∅; BrowserBreakdown := ∅; OSBreakdown := ∅;
     GeoBreakdown := ∅; HourlyBreakdown := ∅; DomainBreakdown := ∅;
     CampaignPerformance := ∅ |}.

(** The record loop: [Read] until [io.EOF]; any other error of [Read] ends
    the parse. The recursion follows the reader's remaining input, which
    every [Read] shortens by one item. *)
Fixpoint recordLoop (colMap : gmap string Z) (fieldsPerRecord : Z)
  (input : list csv.Item) (summary : BeeswaxLogSummary)
  : Error + BeeswaxLogSummary :=
  match input with
  | [] => inr summary
  | _ :: rest =>
      match csv.Read (csv.mkReader fieldsPerRecord input) with
      | ((_, Some csv.EOF), _) => inr summary
      | ((_, Some err), _) => inl (ErrorReadingRecord err)
      | ((record, None), reader) =>
          recordLoop colMap (csv.FieldsPerRecord reader) rest
            (processRecord colMap record summary)
      end
  end.

Definition campaignCTR (campaign : CampaignMetrics.t) : CampaignMetrics.t :=
  if 0 <? CampaignMetrics.Impressions campaign then
    CampaignMetrics.mk
      (CampaignMetrics.Impressions campaign)
      (CampaignMetrics.Clicks campaign)
      (CampaignMetrics.Conversions campaign)
      (CampaignMetrics.Spend campaign)
      (float64_of_int (CampaignMetrics.Clicks campaign)
       / float64_of_int (CampaignMetrics.Impressions campaign) * 100)%float
  else campaign.

(** The derived metrics, computed after the loop. The loop over the campaign
    map rewrites each entry from its own value, so it is a map over the
    values. *)
Definition finalize (summary : BeeswaxLogSummary) : BeeswaxLogSummary :=
  {| TotalRecords := TotalRecords summary;
     TotalImpressions := TotalImpressions summary;
     TotalClicks := TotalClicks summary;
     TotalConversions := TotalConversions summary;
     TotalBidAmount := TotalBidAmount summary;
     TotalWinCost := TotalWinCost summary;
     CTR :=
       if 0 <? TotalImpressions summary
       then (float64_of_int (TotalClicks summary)
             / float64_of_int (TotalImpressions summary) * 100)%float
       else CTR summary;
     AverageBidPrice :=
       if 0 <? TotalRecords summary
       then (TotalBidAmount summary / float64_of_int (TotalRecords summary))%float
       else AverageBidPrice summary;
     AverageWinRate :=
       if 0 <? TotalRecords summary
       then (float64_of_int (TotalImpressions summary)
             / float64_of_int (TotalRecords summary) * 100)%float
       else AverageWinRate summary;
     TimeRange := TimeRange summary;
     DeviceBreakdown := DeviceBreakdown summary;
     BrowserBreakdown := BrowserBreakdown summary;
     OSBreakdown := OSBreakdown summary;
     GeoBreakdown := GeoBreakdown summary;
     HourlyBreakdown := HourlyBreakdown summary;
     DomainBreakdown := DomainBreakdown summary;
     CampaignPerformance := campaignCTR <$> CampaignPerformance summary |}.

Definition ParseBeeswaxLog (reader : list csv.Item) : Error + BeeswaxLogSummary :=
  let csvReader := csv.NewReader reader in
  match csv.Read csvReader with
  | ((_, Some err), _) => inl (FailedToReadHeader err)
  | ((header, None), csvReader) =>
      match resolveColumns requiredCols (indexHeader header 0 ∅) with
      | inl err => inl err
      | inr colMap =>
          match recordLoop colMap (csv.FieldsPerRecord csvReader)
                  (csv.input csvReader) initialSummary with
          | inl err => inl err
          | inr summary => inr (finalize summary)
          end
      end
  end.

End ingestion.

(** ** ingestion: the result store of [LogProcessorService] *)

Module processor.

(** [LogAnalysisResult]; [Summary] has the open type [interface{}], here
    the parameter [Any]. *)
Record LogAnalysisResult (Any : Type) := mkResult {
  FileID : string;
  UserID : string;
  FileName : string;
  ProcessedAt : time.Time;
  Summary : Any;
  Status : string;
  ErrorMessage : string }.

Arguments mkResult {Any}.
Arguments FileID {Any}.
Arguments UserID {Any}.
Arguments FileName {Any}.
Arguments ProcessedAt {Any}.
Arguments Summary {Any}.
Arguments Status {Any}.
Arguments ErrorMessage {Any}.

(** The library functions the store calls, as an interface:
    [filepath.Join], [json.MarshalIndent(result, "", "  ")] and
    [json.Unmarshal(data, &result)]; [None] is their error. *)
Class Lib (Any : Type) := {
  Join : list string -> string;
  MarshalIndent : LogAnalysisResult Any -> option string;
  Unmarshal : string -> option (LogAnalysisResult Any) }.

(** The disk: the regular files by path, with their contents. Directories
    are implicit: [os.MkdirAll] succeeds and changes no file, and
    [os.WriteFile] creates the file or replaces its contents. *)
Record LogProcessorService := mkService { basePath : string }.

Inductive Error :=
| FailedToSerialize
| NotFound (fileID : string)
| FailedToParse.

Definition analysisFile (fileID : string) : string :=
  fileID ++ "_analysis.json".

Definition storeAnalysisResult {Any} `{Lib Any} (s : LogProcessorService)
  (disk : gmap string string) (result : LogAnalysisResult Any)
  (userID fileID : string) : option Error * gmap string string :=
  let resultsDir := Join [basePath s; "reports"; userID] in
  match MarshalIndent result with
  | None => (Some FailedToSerialize, disk)
  | Some data =>
      let resultsPath := Join [resultsDir; analysisFile fileID] in
      (None, <[resultsPath := data]> disk)
  end.

Definition GetAnalysisResult {Any} `{Lib Any} (s : LogProcessorService)
  (disk : gmap string string) (fileID userID : string)
  : Error + LogAnalysisResult Any :=
  let resultsPath := Join [basePath s; "reports"; userID; analysisFile fileID] in
  match disk !! resultsPath with
  | None => inl (NotFound fileID)
  | Some data =>
      match Unmarshal data with
      | None => inl FailedToParse
      | Some result => inr result
      end
  end.

(** Only [os.Stat] is called: the answer is whether the file is there. *)
Definition IsLogFileProcessed {Any} `{Lib Any} (s : LogProcessorService)
  (disk : gmap string string) (fileID userID : string) : bool * option Error :=
  let resultsPath := Join [basePath s; "reports"; userID; analysisFile fileID] in
  match disk !! resultsPath with
  | None => (false, None)
  | Some _ => (true, None)
  end.

End processor.

(** ** path/filepath *)

Module filepath.

(** [filepath.Ext]: the loop from the last byte down to the last separator,
    [n] the number of bytes still to look at. *)
Fixpoint extLoop (n : nat) (path : string) : string :=
  match n with
  | O => ""
  | S i =>
      match String.get i path with
      | Some c =>
          if Ascii.eqb c "/" then ""
          else if Ascii.eqb c "." then time.drop i path
          else extLoop i path
      | None => ""
      end
  end.

Definition Ext (path : string) : string := extLoop (String.length path) path.

End filepath.

(** ** ingestion: processing a log file *)

Module logprocessor.

Import ingestion processor.

(** What the run depends on besides the library of [processor.Lib]: the
    records [csv.Reader] finds in the bytes of a file, and the texts of the
    errors of [os.Open] and of the reader. *)
Class Runtime := {
  records : string -> list csv.Item;
  openErrorText : string -> string;
  csvErrorText : csv.Error -> string }.

Definition NewLogProcessorService (basePath : string) : LogProcessorService :=
  mkService (if String.eqb basePath "" then "uploads" else basePath).

(** The error [ProcessLogFile] returns with its result. *)
Inductive ProcessError :=
| FailedToOpen
| UnsupportedFormat (ext : string)
| FailedToParse (e : ingestion.Error)
| FailedToStore (e : processor.Error).

(** [err.Error()] for the errors of [ParseBeeswaxLog]. *)
Definition errorText `{Runtime} (e : ingestion.Error) : string :=
  match e with
  | FailedToReadHeader e => "failed to read header: " ++ csvErrorText e
  | RequiredColumnNotFound col => "required column not found: " ++ col
  | ErrorReadingRecord e => "error reading record: " ++ csvErrorText e
  end.

(** [ProcessLogFile]; [now] is what [time.Now()] returns. The summary of a
    result is [nil] ([None]) until the parse has succeeded. *)
Definition ProcessLogFile `{Lib (option BeeswaxLogSummary)} `{Runtime}
  (s : LogProcessorService) (disk : gmap string string) (now : time.Time)
  (filePath fileID fileName userID : string)
  : (LogAnalysisResult (option BeeswaxLogSummary) * option ProcessError)
    * gmap string string :=
  let result status summary message :=
    mkResult fileID userID fileName now summary status message in
  match disk !! filePath with
  | None =>
      ((result "error" None ("Failed to open file: " ++ openErrorText filePath),
        Some FailedToOpen), disk)
  | Some file =>
      let ext := filepath.Ext fileName in
      if negb (String.eqb ext ".csv") then
        ((result "error" None "Unsupported file format. Only CSV files are supported.",
          Some (UnsupportedFormat ext)), disk)
      else
        match ParseBeeswaxLog (records file) with
        | inl err =>
            ((result "error" None ("Failed to parse file: " ++ errorText err),
              Some (FailedToParse err)), disk)
        | inr beeswaxSummary =>
            let result := result "completed" (Some beeswaxSummary) "" in
            match storeAnalysisResult s disk result userID fileID with
            | (Some err, disk) => ((result, Some (FailedToStore err)), disk)
            | (None, disk) => ((result, None), disk)
            end
        end
  end.

End logprocessor.

(** ** storage: finding a stored file *)

Module storage.

Import processor.

(** An entry of a directory as [os.ReadDir] gives it, with what
    [entry.Info()] tells of it. *)
Record DirEntry := mkEntry {
  Name : string;
  IsDir : bool;
  Size : Z;
  ModTime : time.Time }.

Record FileInfo := mkFileInfo {
  ID : string;
  FileName : string;
  FileSize : Z;
  FileType : string;
  UploadedAt : time.Time;
  UserID : string;
  FilePath : string }.

Record FileStorage := mkStorage { basePath : string }.

Inductive Error :=
| FileNotFound
| FailedToOpenFile.

Definition isLogFile (fileType fileName : string) : bool :=
  let ext := filepath.Ext fileName in
  String.eqb fileType "text/csv"
  || String.eqb fileType "application/vnd.ms-excel"
  || String.eqb fileType
       "application/vnd.openxmlformats-officedocument.spreadsheetml.sheet"
  || String.eqb fileType "text/plain"
  || String.eqb ext ".csv" || String.eqb ext ".xls" || String.eqb ext ".xlsx"
  || String.eqb ext ".log" || String.eqb ext ".txt".

Definition isReportFile (fileType fileName : string) : bool :=
  let ext := filepath.Ext fileName in
  String.eqb fileType "application/pdf" || String.eqb ext ".pdf"
  || String.eqb fileType
       "application/vnd.openxmlformats-officedocument.wordprocessingml.document"
  || String.eqb ext ".docx" || String.eqb ext ".doc".

(** The subdirectory [StoreFile] chooses for an upload. *)
Definition subDirFor (fileType fileName : string) : string :=
  if isLogFile fileType fileName then "dsp_logs"
  else if isReportFile fileType fileName then "reports"
  else "temp".

Definition getFileTypeFromName (fileName : string) : string :=
  let ext := filepath.Ext fileName in
  if String.eqb ext ".csv" then "text/csv"
  else if String.eqb ext ".xls" then "application/vnd.ms-excel"
  else if String.eqb ext ".xlsx"
  then "application/vnd.openxmlformats-officedocument.spreadsheetml.sheet"
  else if String.eqb ext ".txt" || String.eqb ext ".log" then "text/plain"
  else if String.eqb ext ".pdf" then "application/pdf"
  else if String.eqb ext ".doc" || String.eqb ext ".docx"
  then "application/vnd.openxmlformats-officedocument.wordprocessingml.document"
  else if String.eqb ext ".json" then "application/json"
  else "application/octet-stream".

(** The loop over the entries of one directory: the first entry that is no
    directory and whose name starts with the id and an underscore.
    ([entry.Info()] is taken to succeed.) *)
Fixpoint findInEntries {Any} `{Lib Any} (id userID dirPath : string)
  (entries : list DirEntry) : option FileInfo :=
  match entries with
  | [] => None
  | entry :: rest =>
      if IsDir entry then findInEntries id userID dirPath rest
      else if String.prefix (id ++ "_") (Name entry) then
        let originalName := time.drop (String.length id + 1) (Name entry) in
        Some (mkFileInfo id originalName (Size entry)
                (getFileTypeFromName originalName) (ModTime entry) userID
                (Join [dirPath; Name entry]))
      else findInEntries id userID dirPath rest
  end.

(** The loop over the subdirectories. [dirs] gives the listing of every
    directory that exists; a directory that is missing or cannot be read is
    passed over. *)
Fixpoint findInDirs {Any} `{Lib Any} (fs : FileStorage)
  (dirs : gmap string (list DirEntry)) (id userID : string)
  (subDirs : list string) : Error + FileInfo :=
  match subDirs with
  | [] => inl FileNotFound
  | subDir :: rest =>
      let dirPath := Join [basePath fs; subDir; userID] in
      match dirs !! dirPath with
      | None => findInDirs fs dirs id userID rest
      | Some entries =>
          match findInEntries id userID dirPath entries with
          | Some fileInfo => inr fileInfo
          | None => findInDirs fs dirs id userID rest
          end
      end
  end.

Definition findFileByID {Any} `{Lib Any} (fs : FileStorage)
  (dirs : gmap string (list DirEntry)) (id userID : string) : Error + FileInfo :=
  findInDirs fs dirs id userID ["dsp_logs"; "reports"; "temp"].

(** [GetFile]: the open file (its contents) and its metadata. *)
Definition GetFile {Any} `{Lib Any} (fs : FileStorage)
  (dirs : gmap string (list DirEntry)) (disk : gmap string string)
  (id userID : string) : Error + (string * FileInfo) :=
  match findFileByID fs dirs id userID with
  | inl err => inl err
  | inr fileInfo =>
      match disk !! FilePath fileInfo with
      | None => inl FailedToOpenFile
      | Some file => inr (file, fileInfo)
      end
  end.

End storage.

(** ** services: the file service *)

Module services.

Import ingestion processor.

Record FileService := mkFileService {
  fileStorage : storage.FileStorage;
  logProcessor : LogProcessorService }.

Inductive Error :=
| FailedToCheck (e : processor.Error)
| FailedToGetResult (e : processor.Error)
| FailedToGetFile (e : storage.Error)
| FailedToProcess (e : logprocessor.ProcessError)
| FileTypeNotAllowed (contentType : string)
| FileTooLarge.

(** [validateFileType], on the Content-Type of the upload. *)
Definition allowedTypes : list string :=
  ["text/csv"; "application/vnd.ms-excel";
   "application/vnd.openxmlformats-officedocument.spreadsheetml.sheet";
   "text/plain"; "application/json"].

Definition validateFileType (contentType : string) : option Error :=
  if existsb (String.eqb contentType) allowedTypes then None
  else Some (FileTypeNotAllowed contentType).

(** [validateFileSize], on the size of the upload in bytes. *)
Definition validateFileSize (size : Z) : option Error :=
  if 50 * 1024 * 1024 <? size then Some FileTooLarge else None.

Definition GetLogAnalysisResult `{Lib (option BeeswaxLogSummary)}
  (s : FileService) (disk : gmap string string) (fileID userID : string)
  : processor.Error + LogAnalysisResult (option BeeswaxLogSummary) :=
  GetAnalysisResult (logProcessor s) disk fileID userID.

(** [ProcessLogFile] of the file service: the stored result when there is
    one, else the result of processing the stored file. A failed processing
    returns the error alone. *)
Definition ProcessLogFile `{Lib (option BeeswaxLogSummary)} `{logprocessor.Runtime}
  (s : FileService) (dirs : gmap string (list storage.DirEntry))
  (disk : gmap string string) (now : time.Time) (fileID userID : string)
  : (Error + LogAnalysisResult (option BeeswaxLogSummary)) * gmap string string :=
  match IsLogFileProcessed (logProcessor s) disk fileID userID with
  | (_, Some err) => (inl (FailedToCheck err), disk)
  | (true, None) =>
      match GetLogAnalysisResult s disk fileID userID with
      | inl err => (inl (FailedToGetResult err), disk)
      | inr result => (inr result, disk)
      end
  | (false, None) =>
      match storage.GetFile (fileStorage s) dirs disk fileID userID with
      | inl err => (inl (FailedToGetFile err), disk)
      | inr (_, fileInfo) =>
          match logprocessor.ProcessLogFile (logProcessor s) disk now
                  (storage.FilePath fileInfo) fileID (storage.FileName fileInfo)
                  userID with
          | ((_, Some err), disk) => (inl (FailedToProcess err), disk)
          | ((result, None), disk) => (inr result, disk)
          end
      end
  end.

End services.

(** * Properties *)

Import ingestion.

(** ** Sample data: the scenario of the specification *)

Definition sampleHeader : list string := requiredCols.

Definition sampleRow1 : list string :=
  ["a1"; "x1"; "500000"; "2024-07-01 10:00:00"; "c1"; "450000"; "1"; "0";
   "cr1"; "example.com"; "US"; "NY"; "mobile"; "chrome"; "ios"; "400000"].

Definition sampleRow2 : list string :=
  ["a1"; "x2"; "600000"; "2024-07-01 11:00:00"; "c1"; "0"; "0"; "0";
   "cr2"; "other.com"; "US"; "LA"; "desktop"; "firefox"; "windows"; "0"].

Definition sampleInput : list csv.Item :=
  [csv.Row sampleHeader; csv.Row sampleRow1; csv.Row sampleRow2].

(** A data row of the sample shape with the given bid price, bid time and
    campaign cells. *)
Definition rowWith (bid bidTime campaign : string) : list string :=
  ["a1"; "x1"; bid; bidTime; campaign; "0"; "0"; "0";
   "cr1"; "example.com"; "US"; "NY"; "mobile"; "chrome"; "ios"; "0"].

(** The bid time a row carries under a resolved header. *)
Definition bidTimeOf (colMap : gmap string Z) (record : list string) : time.Time :=
  parseBidTime (getValueSafely colMap record "BID_TIME").

Definition bidPriceOf (colMap : gmap string Z) (record : list string) : Z :=
  fst (strconv.ParseInt (getValueSafely colMap record "BID_PRICE_MICROS_USD")).

Definition winCostOf (colMap : gmap string Z) (record : list string) : Z :=
  fst (strconv.ParseInt (getValueSafely colMap record "WIN_COST_MICROS_USD")).

(** The accumulator after the given data rows, before the derived metrics. *)
Definition aggregate (colMap : gmap string Z) (rows : list (list string))
  (summary : BeeswaxLogSummary) : BeeswaxLogSummary :=
  fold_left (fun s r => processRecord colMap r s) rows summary.

(** A header in which every required column occurs, in some letter case. *)
Definition validHeader (header : list string) : Prop :=
  forall col, In col requiredCols ->
    exists h, In h header /\ strings.ToUpper h = col.


(** ** Library functions on examples *)

Example ParseInt_500000 : strconv.ParseInt "500000" = (500000, None).
Proof. reflexivity. Qed.

Example ParseInt_negative : strconv.ParseInt "-42" = (-42, None).
Proof. reflexivity. Qed.

Example ParseInt_MinInt64 :
  strconv.ParseInt "-9223372036854775808" = (MinInt64, None).
Proof. vm_compute. reflexivity. Qed.

Example ParseInt_letters : strconv.ParseInt "12a" = (0, Some strconv.ErrSyntax).
Proof. reflexivity. Qed.

Example ParseInt_too_big :
  strconv.ParseInt "9223372036854775808" = (MaxInt64, Some strconv.ErrRange).
Proof. vm_compute. reflexivity. Qed.

Example ToUpper_mixed : strings.ToUpper "Bid_Time" = "BID_TIME".
Proof. reflexivity. Qed.

Example Parse_seconds :
  time.Parse time.layoutSeconds "2024-07-01 10:00:00"
  = (time.Date 2024 7 1 10 0 0 0, None).
Proof. vm_compute. reflexivity. Qed.

Example Parse_millis_needs_fraction :
  snd (time.Parse time.layoutMillis "2024-07-01 10:00:00") = Some time.errParse.
Proof. vm_compute. reflexivity. Qed.

Example Parse_millis :
  time.Parse time.layoutMillis "2024-07-01 10:00:00.250"
  = (time.Date 2024 7 1 10 0 0 250000000, None).
Proof. vm_compute. reflexivity. Qed.

Example Parse_seconds_takes_fraction :
  time.Parse time.layoutSeconds "2024-07-01 10:00:00.123456"
  = (time.Date 2024 7 1 10 0 0 123456000, None).
Proof. vm_compute. reflexivity. Qed.

Example Parse_day_out_of_range :
  snd (time.Parse time.layoutSeconds "2023-02-29 10:00:00") = Some time.errParse.
Proof. vm_compute. reflexivity. Qed.

Example Parse_iso_rejected :
  snd (time.Parse time.layoutSeconds "2024-07-01T10:00:00Z") = Some time.errParse.
Proof. vm_compute. reflexivity. Qed.

Example unix_epoch : time.sec farPast = 62135596800.
Proof. reflexivity. Qed.

Example FormatHour_sample :
  time.FormatHour (time.Date 2024 7 1 14 5 9 0) = "2024-07-01 14".
Proof. reflexivity. Qed.

(** The scenario of the specification: two rows, one campaign. *)
Example sample_summary :
  match ParseBeeswaxLog sampleInput with
  | inr s =>
      Some (TotalRecords s, TotalImpressions s, TotalClicks s,
            TotalBidAmount s, TotalWinCost s, CTR s,
            CampaignPerformance s !! "c1",
            DeviceBreakdown s !! "mobile", DeviceBreakdown s !! "desktop",
            HourlyBreakdown s !! "2024-07-01 10", HourlyBreakdown s !! "2024-07-01 11",
            TimeRange s)
  | inl _ => None
  end
  = Some (2, 2, 1, 1.1%float, 0.4%float, 50%float,
          Some (CampaignMetrics.mk 2 1 0 0.4 50),
          Some 1, Some 1, Some 1, Some 1,
          (time.Date 2024 7 1 10 0 0 0, time.Date 2024 7 1 11 0 0 0)).
Proof. vm_compute. reflexivity. Qed.

(** ** Machine integers *)

Lemma wrap64_small (z : Z) : - 2^63 <= z < 2^63 -> wrap64 z = z.
Proof.
  intros Hz. unfold wrap64.
  rewrite Z.mod_small by lia. lia.
Qed.

(** ** The record loop as a fold *)

Lemma checkFields_same (n : Z) (record : list string) :
  0 < n -> Z.of_nat (List.length record) = n ->
  csv.checkFields n record = ((record, None), n).
Proof.
  intros Hn Hlen. unfold csv.checkFields.
  destruct (Z.ltb_spec 0 n); [|lia].
  rewrite Hlen, Z.eqb_refl. reflexivity.
Qed.

Lemma checkFields_other (n : Z) (record : list string) :
  0 < n -> Z.of_nat (List.length record) <> n ->
  csv.checkFields n record = ((record, Some csv.ErrFieldCount), n).
Proof.
  intros Hn Hlen. unfold csv.checkFields.
  destruct (Z.ltb_spec 0 n); [|lia].
  destruct (Z.eqb_spec (Z.of_nat (List.length record)) n); [lia|reflexivity].
Qed.

Lemma checkFields_inv (n n' : Z) (record record' : list string) :
  csv.checkFields n record = ((record', None), n') -> record' = record.
Proof.
  unfold csv.checkFields.
  repeat match goal with |- context [if ?b then _ else _] => destruct b end;
    intros [= <- <-] || intros [=]; reflexivity.
Qed.

Lemma recordLoop_rows colMap (n : Z) (rows : list (list string)) summary :
  0 < n ->
  Forall (fun r => Z.of_nat (List.length r) = n) rows ->
  recordLoop colMap n (map csv.Row rows) summary
  = inr (aggregate colMap rows summary).
Proof.
  intros Hn Hrows. revert summary.
  induction Hrows as [|r rows Hr _ IH]; intros summary; [reflexivity|].
  cbn [map recordLoop csv.Read csv.input csv.FieldsPerRecord].
  rewrite (checkFields_same n r Hn Hr). cbn. apply IH.
Qed.

Lemma recordLoop_inr colMap (input : list csv.Item) :
  forall (n : Z) summary summary',
  recordLoop colMap n input summary = inr summary' ->
  exists rows, input = map csv.Row rows
    /\ summary' = aggregate colMap rows summary.
Proof.
  induction input as [|item input IH]; intros n summary summary' H.
  - exists []. injection H as <-. split; reflexivity.
  - destruct item as [record|msg]; cbn [recordLoop csv.Read csv.input csv.FieldsPerRecord] in H.
    + destruct (csv.checkFields n record) as [[record' [err|]] n'] eqn:Hc.
      * destruct err; cbn in H; discriminate H || idtac.
        unfold csv.checkFields in Hc.
        repeat match type of Hc with context [if ?b then _ else _] => destruct b end;
          discriminate Hc.
      * cbn in H. apply checkFields_inv in Hc as ->.
        apply IH in H as (rows & -> & ->).
        exists (record :: rows). split; reflexivity.
    + discriminate H.
Qed.

(** A parse that returns a summary read a header and then rows only, and the
    summary is the finalised fold of the rows. *)
Lemma ParseBeeswaxLog_inr (input : list csv.Item) summary :
  ParseBeeswaxLog input = inr summary ->
  exists header rows colMap,
    input = csv.Row header :: map csv.Row rows
    /\ resolveColumns requiredCols (indexHeader header 0 ∅) = inr colMap
    /\ summary = finalize (aggregate colMap rows initialSummary).
Proof.
  unfold ParseBeeswaxLog, csv.NewReader, csv.Read. cbn [csv.input csv.FieldsPerRecord].
  destruct input as [|[header|msg] input]; try discriminate.
  destruct (csv.checkFields 0 header) as [[header' [err|]] n] eqn:Hc; [discriminate|].
  apply checkFields_inv in Hc as ->.
  cbn [csv.input csv.FieldsPerRecord].
  destruct (resolveColumns requiredCols (indexHeader header 0 ∅))
    as [err|colMap] eqn:Hres; [discriminate|].
  destruct (recordLoop colMap n input initialSummary) as [err|s] eqn:Hloop; [discriminate|].
  intros [= <-]. apply recordLoop_inr in Hloop as (rows & -> & ->).
  exists header, rows, colMap. repeat split. exact Hres.
Qed.

(** A resolved header followed by rows of the header's width parses. *)
Lemma ParseBeeswaxLog_rows (header : list string) (rows : list (list string)) colMap :
  header <> [] ->
  resolveColumns requiredCols (indexHeader header 0 ∅) = inr colMap ->
  Forall (fun r => List.length r = List.length header) rows ->
  ParseBeeswaxLog (csv.Row header :: map csv.Row rows)
  = inr (finalize (aggregate colMap rows initialSummary)).
Proof.
  intros Hne Hres Hrows.
  unfold ParseBeeswaxLog, csv.NewReader, csv.Read. cbn [csv.input csv.FieldsPerRecord].
  unfold csv.checkFields. cbn [Z.ltb Z.compare Z.eqb].
  cbn [csv.input csv.FieldsPerRecord]. rewrite Hres.
  rewrite recordLoop_rows; [reflexivity| |].
  - destruct header; [congruence|]. cbn [List.length]. lia.
  - eapply Forall_impl; [exact Hrows|]. cbn. intros r ->. reflexivity.
Qed.

(** ** Header resolution *)

Lemma requiredCols_upper :
  Forall (fun col => strings.ToUpper col = col) requiredCols.
Proof. repeat constructor. Qed.

(** The tokens of [header] that match [col], exactly or ignoring case. *)
Definition matches (header : list string) (col : string) : bool :=
  existsb (fun h => String.eqb (strings.ToUpper h) col) header.

Lemma matches_true header col :
  matches header col = true <-> exists h, In h header /\ strings.ToUpper h = col.
Proof.
  unfold matches. rewrite existsb_exists.
  split; intros (h & Hin & Hh); exists h; split; auto; apply String.eqb_eq; auto.
Qed.

Lemma matches_false header col :
  matches header col = false <-> forall h, In h header -> strings.ToUpper h <> col.
Proof.
  split.
  - intros Hm h Hin Hh.
    assert (matches header col = true) by (apply matches_true; eauto). congruence.
  - intros Hno. destruct (matches header col) eqn:Hm; [|reflexivity].
    apply matches_true in Hm as (h & Hin & Hh). destruct (Hno h Hin Hh).
Qed.

(** What the column map knows while the required columns are resolved:
    every header token is a key, and every key points at a header cell that
    equals it up to case (and equals it exactly when the key is a token). *)
Definition covers (header : list string) (colMap : gmap string Z) : Prop :=
  (forall h, In h header -> is_Some (colMap !! h))
  /\ (forall k i, colMap !! k = Some i ->
        0 <= i /\ exists h, header !! Z.to_nat i = Some h
          /\ strings.ToUpper h = strings.ToUpper k
          /\ (In k header -> h = k)).

Lemma indexHeader_lookup (hs : list string) :
  forall (i : Z) (m : gmap string Z) (k : string) (j : Z),
  indexHeader hs i m !! k = Some j ->
  (~ In k hs /\ m !! k = Some j)
  \/ (exists n : nat, j = i + Z.of_nat n /\ hs !! n = Some k).
Proof.
  induction hs as [|h hs IH]; intros i m k j H; cbn in H.
  - left. split; [intros []|exact H].
  - apply IH in H as [(Hnin & H)|(n & -> & Hn)].
    + destruct (decide (h = k)) as [->|Hne].
      * rewrite lookup_insert_eq in H. injection H as <-.
        right. exists 0%nat. split; [lia|reflexivity].
      * rewrite lookup_insert_ne in H by exact Hne.
        left. split; [|exact H]. intros [Heq|Hin]; [exact (Hne Heq)|exact (Hnin Hin)].
    + right. exists (S n). split; [lia|exact Hn].
Qed.

Lemma indexHeader_dom (hs : list string) :
  forall (i : Z) (m : gmap string Z) (k : string),
  In k hs \/ is_Some (m !! k) -> is_Some (indexHeader hs i m !! k).
Proof.
  induction hs as [|h hs IH]; intros i m k Hin; cbn.
  - destruct Hin as [[]|Hm]. exact Hm.
  - apply IH. destruct (decide (h = k)) as [->|Hne].
    + right. rewrite lookup_insert_eq. eauto.
    + rewrite lookup_insert_ne by exact Hne.
      destruct Hin as [[Heq|Hin]|Hm]; [destruct (Hne Heq)|left; exact Hin|right; exact Hm].
Qed.

Lemma covers_indexHeader (header : list string) :
  covers header (indexHeader header 0 ∅).
Proof.
  split.
  - intros h Hin. apply indexHeader_dom. left. exact Hin.
  - intros k i H. apply indexHeader_lookup in H as [(_ & H)|(n & -> & Hn)].
    + rewrite lookup_empty in H. discriminate.
    + split; [lia|]. exists k. rewrite Z.add_0_l, Nat2Z.id. auto.
Qed.

Lemma findIgnoringCase_Some col (m : gmap string Z) k i :
  findIgnoringCase col m = Some (k, i) ->
  m !! k = Some i /\ strings.ToUpper k = col.
Proof.
  unfold findIgnoringCase. intros H. apply find_some in H as [Hin Heq].
  split; [|apply String.eqb_eq; exact Heq].
  apply elem_of_map_to_list, list_elem_of_In. exact Hin.
Qed.

Lemma findIgnoringCase_None col (m : gmap string Z) k i :
  findIgnoringCase col m = None -> m !! k = Some i -> strings.ToUpper k <> col.
Proof.
  unfold findIgnoringCase. intros H Hk Heq.
  apply elem_of_map_to_list, list_elem_of_In in Hk.
  pose proof (find_none _ _ H _ Hk) as Hf. cbn in Hf.
  apply String.eqb_neq in Hf. exact (Hf Heq).
Qed.

(** The validation loop fails at the first column nothing matches, and
    otherwise resolves every column to a header cell. *)
Lemma resolveColumns_spec (header : list string) (cols : list string) :
  forall colMap,
  covers header colMap ->
  Forall (fun col => strings.ToUpper col = col) cols ->
  match List.filter (fun col => negb (matches header col)) cols with
  | [] =>
      exists colMap',
        resolveColumns cols colMap = inr colMap'
        /\ covers header colMap'
        /\ (forall col, In col cols -> is_Some (colMap' !! col))
        /\ (forall k, is_Some (colMap !! k) -> colMap' !! k = colMap !! k)
  | col :: _ => resolveColumns cols colMap = inl (RequiredColumnNotFound col)
  end.
Proof.
  induction cols as [|col cols IH]; intros colMap Hcov Hup.
  - cbn. exists colMap. split; [reflexivity|]. split; [exact Hcov|].
    split; [intros ? []|reflexivity].
  - apply Forall_cons in Hup as [Hcol Hup]. cbn [List.filter resolveColumns].
    destruct Hcov as [Hdom Hval].
    destruct (matches header col) eqn:Hm; cbn [negb].
    + (* some token matches: by the exact key, or by the scan *)
      apply matches_true in Hm as (h & Hin & Hh).
      destruct (colMap !! col) as [i|] eqn:Hl.
      * specialize (IH colMap (conj Hdom Hval) Hup).
        destruct (List.filter _ cols); [|exact IH].
        destruct IH as (m' & Hres & Hcov' & Hall & Hmono).
        exists m'. split; [exact Hres|]. split; [exact Hcov'|]. split; [|exact Hmono].
        intros c [<-|Hc]; [|apply Hall; exact Hc].
        rewrite Hmono by (rewrite Hl; eauto). rewrite Hl. eauto.
      * destruct (findIgnoringCase col colMap) as [[k i]|] eqn:Hf.
        -- apply findIgnoringCase_Some in Hf as [Hk Hkc].
           assert (covers header (<[col:=i]> colMap)) as Hcov'.
           { split.
             - intros h' Hin'. destruct (decide (col = h')) as [->|Hne].
               + rewrite lookup_insert_eq. eauto.
               + rewrite lookup_insert_ne by exact Hne. apply Hdom. exact Hin'.
             - intros k' i' Hl'. destruct (decide (col = k')) as [<-|Hne].
               + rewrite lookup_insert_eq in Hl'. injection Hl' as <-.
                 destruct (Hval k i Hk) as (Hi & h' & Hh' & Hup' & _).
                 split; [exact Hi|]. exists h'. repeat split; [exact Hh'|congruence|].
                 intros Hcin. apply Hdom in Hcin as [? Hc']. congruence.
               + rewrite lookup_insert_ne in Hl' by exact Hne. apply Hval. exact Hl'. }
           specialize (IH _ Hcov' Hup).
           destruct (List.filter _ cols); [|exact IH].
           destruct IH as (m' & Hres & Hcov'' & Hall & Hmono).
           exists m'. split; [exact Hres|]. split; [exact Hcov''|]. split.
           ++ intros c [<-|Hc]; [|apply Hall; exact Hc].
              rewrite Hmono; rewrite lookup_insert_eq; eauto.
           ++ intros k' Hk'. rewrite Hmono.
              ** apply lookup_insert_ne. intros <-. rewrite Hl in Hk'. destruct Hk' as [? [=]].
              ** destruct (decide (col = k')) as [<-|Hne];
                   [rewrite lookup_insert_eq; eauto|rewrite lookup_insert_ne; auto].
        -- exfalso. destruct (Hdom h Hin) as [i Hi].
           exact (findIgnoringCase_None _ _ _ _ Hf Hi Hh).
    + (* nothing matches: neither the exact key nor the scan finds one *)
      pose proof (proj1 (matches_false header col) Hm) as Hno.
      destruct (colMap !! col) as [i|] eqn:Hl.
      * exfalso. destruct (Hval col i Hl) as (_ & h & Hh & Hup' & _).
        apply (Hno h); [|congruence]. eapply list_elem_of_lookup_2 in Hh.
        apply list_elem_of_In. exact Hh.
      * destruct (findIgnoringCase col colMap) as [[k i]|] eqn:Hf; [|reflexivity].
        exfalso. apply findIgnoringCase_Some in Hf as [Hk Hkc].
        destruct (Hval k i Hk) as (_ & h & Hh & Hup' & _).
        apply (Hno h); [|congruence]. eapply list_elem_of_lookup_2 in Hh.
        apply list_elem_of_In. exact Hh.
Qed.

Lemma ParseBeeswaxLog_header (header : list string) (rest : list csv.Item) :
  ParseBeeswaxLog (csv.Row header :: rest)
  = match resolveColumns requiredCols (indexHeader header 0 ∅) with
    | inl err => inl err
    | inr colMap =>
        match recordLoop colMap (Z.of_nat (List.length header)) rest initialSummary with
        | inl err => inl err
        | inr summary => inr (finalize summary)
        end
    end.
Proof. reflexivity. Qed.

Lemma validHeader_matches (header : list string) :
  validHeader header <-> forallb (matches header) requiredCols = true.
Proof.
  unfold validHeader. rewrite forallb_forall.
  split; intros H col Hin; apply matches_true, H, Hin.
Qed.

Lemma filter_nil_iff {A} (f : A -> bool) (l : list A) :
  List.filter f l = [] <-> forall x, In x l -> f x = false.
Proof.
  induction l as [|a l IH]; cbn.
  - split; [intros _ x []|reflexivity].
  - destruct (f a) eqn:Ha; split.
    + discriminate.
    + intros H. specialize (H a (or_introl eq_refl)). congruence.
    + intros H x [<-|Hx]; [exact Ha|]. apply IH; assumption.
    + intros H. apply IH. intros x Hx. apply H. right. exact Hx.
Qed.





(** ** Counting the rows *)

Lemma validHeader_nonempty (header : list string) : validHeader header -> header <> [].
Proof.
  intros Hvalid ->. destruct (Hvalid "CLICKS") as (h & [] & _).
  vm_compute. tauto.
Qed.

Lemma validHeader_resolves (header : list string) :
  validHeader header ->
  exists colMap, resolveColumns requiredCols (indexHeader header 0 ∅) = inr colMap
    /\ covers header colMap.
Proof.
  intros Hvalid.
  pose proof (resolveColumns_spec header requiredCols _
                (covers_indexHeader header) requiredCols_upper) as Hspec.
  assert (List.filter (fun col => negb (matches header col)) requiredCols = []) as Hnil.
  { apply filter_nil_iff. intros col Hin. apply negb_false_iff, matches_true, Hvalid, Hin. }
  rewrite Hnil in Hspec. destruct Hspec as (colMap & Hres & Hcov & _).
  exists colMap. split; assumption.
Qed.

Lemma aggregate_cons colMap r rows summary :
  aggregate colMap (r :: rows) summary
  = aggregate colMap rows (processRecord colMap r summary).
Proof. reflexivity. Qed.

Lemma aggregate_counts colMap (rows : list (list string)) :
  forall summary,
  0 <= TotalRecords summary ->
  TotalRecords summary + Z.of_nat (List.length rows) < 2^63 ->
  TotalImpressions summary = TotalRecords summary ->
  TotalRecords (aggregate colMap rows summary)
  = TotalRecords summary + Z.of_nat (List.length rows)
  /\ TotalImpressions (aggregate colMap rows summary)
     = TotalRecords summary + Z.of_nat (List.length rows).
Proof.
  induction rows as [|r rows IH]; intros summary H0 Hlt Himp.
  - cbn. lia.
  - rewrite aggregate_cons. cbn [List.length] in *.
    assert (wrap64 (TotalRecords summary + 1) = TotalRecords summary + 1) as Hw
      by (apply wrap64_small; lia).
    destruct (IH (processRecord colMap r summary)) as [IH1 IH2].
    + cbn. lia.
    + cbn. lia.
    + cbn. rewrite Himp. reflexivity.
    + cbn in IH1, IH2. rewrite Hw in IH1, IH2. lia.
Qed.

(** Every parse that returns a summary read a header and rows only, and
    counted each row once. *)
Lemma parsed_rows_counted (input : list csv.Item) summary :
  ParseBeeswaxLog input = inr summary ->
  Z.of_nat (List.length input) <= 2^63 ->
  exists header rows,
    input = csv.Row header :: map csv.Row rows
    /\ TotalRecords summary = Z.of_nat (List.length rows)
    /\ TotalImpressions summary = Z.of_nat (List.length rows).
Proof.
  intros Hparse Hlen.
  apply ParseBeeswaxLog_inr in Hparse as (header & rows & colMap & -> & _ & ->).
  exists header, rows. split; [reflexivity|].
  cbn [List.length] in Hlen. rewrite length_map in Hlen.
  cbn [finalize TotalRecords TotalImpressions].
  apply (aggregate_counts colMap rows initialSummary); cbn; lia.
Qed.

(** C6. In every summary the parse returns, the total records and the total
    impressions both equal the number of data rows that follow the header;
    and a stream made of a valid header and data rows of the header's width
    is parsed to such a summary. *)
Theorem record_count :
  (forall (input : list csv.Item) summary,
     ParseBeeswaxLog input = inr summary ->
     Z.of_nat (List.length input) <= 2^63 ->
     exists header rows,
       input = csv.Row header :: map csv.Row rows
       /\ TotalRecords summary = Z.of_nat (List.length rows)
       /\ TotalImpressions summary = Z.of_nat (List.length rows))
  /\ (forall (header : list string) (rows : list (list string)),
       validHeader header ->
       Forall (fun r => List.length r = List.length header) rows ->
       Z.of_nat (List.length rows) < 2^63 ->
       exists summary,
         ParseBeeswaxLog (csv.Row header :: map csv.Row rows) = inr summary
         /\ TotalRecords summary = Z.of_nat (List.length rows)
         /\ TotalImpressions summary = Z.of_nat (List.length rows)).
Proof.
  split; [exact parsed_rows_counted|].
  intros header rows Hvalid Hrows Hlen.
  destruct (validHeader_resolves header Hvalid) as (colMap & Hres & _).
  eexists. split.
  - apply ParseBeeswaxLog_rows; [apply validHeader_nonempty| |]; eassumption.
  - cbn [finalize TotalRecords TotalImpressions].
    apply (aggregate_counts colMap rows initialSummary); cbn; lia.
Qed.

Lemma record_count_witness :
  exists summary,
    ParseBeeswaxLog sampleInput = inr summary
    /\ TotalRecords summary = 2 /\ TotalImpressions summary = 2.
Proof.
  apply (proj2 record_count sampleHeader [sampleRow1; sampleRow2]).
  - apply validHeader_matches. vm_compute. reflexivity.
  - repeat constructor.
  - vm_compute. reflexivity.
Defined.

(** ** Rows with a missing cell *)

(** The guard of [getValueSafely]: an index past the end of the record reads
    as the empty string. *)
Lemma getValueSafely_out_of_range colMap (record : list string) col (i : Z) :
  colMap !! col = Some i -> Z.of_nat (List.length record) <= i ->
  getValueSafely colMap record col = "".
Proof.
  intros Hi Hlen. unfold getValueSafely. rewrite Hi.
  destruct (Z.leb_spec (Z.of_nat (List.length record)) i); [reflexivity|lia].
Qed.

(** The reader never hands such a record to the loop: a record that passed
    [Read] has the header's width, and every resolved index is below it. *)
Lemma resolved_index_in_range (header record : list string) colMap col (i : Z) :
  covers header colMap ->
  List.length record = List.length header ->
  colMap !! col = Some i ->
  0 <= i < Z.of_nat (List.length record).
Proof.
  intros [_ Hval] Hlen Hi. destruct (Hval col i Hi) as (H0 & h & Hh & _).
  apply lookup_lt_Some in Hh. lia.
Qed.

(** A data row of another width than the header ends the parse with the
    reader's error, whatever the rows before and after it. *)
Lemma ragged_row_rejected (header : list string) (rows : list (list string))
  (record : list string) (rest : list csv.Item) :
  validHeader header ->
  Forall (fun r => List.length r = List.length header) rows ->
  List.length record <> List.length header ->
  ParseBeeswaxLog (csv.Row header :: map csv.Row rows ++ csv.Row record :: rest)
  = inl (ErrorReadingRecord csv.ErrFieldCount).
Proof.
  intros Hvalid Hrows Hrec.
  destruct (validHeader_resolves header Hvalid) as (colMap & Hres & _).
  rewrite ParseBeeswaxLog_header, Hres.
  assert (0 < Z.of_nat (List.length header)) as Hpos.
  { pose proof (validHeader_nonempty header Hvalid). destruct header; [congruence|cbn; lia]. }
  generalize initialSummary. induction Hrows as [|r rows Hr _ IH]; intros summary.
  - cbn [map app recordLoop csv.Read csv.input csv.FieldsPerRecord].
    rewrite checkFields_other by lia. reflexivity.
  - cbn [map app recordLoop csv.Read csv.input csv.FieldsPerRecord].
    rewrite checkFields_same by lia. cbn. apply IH.
Qed.

(** C1. A data row that lacks its last cell is not read as a row with an
    empty cell: the parse of the sample header, a full row and the short row
    returns the reader's field-count error and no summary. *)
Theorem short_row_aborts_parse :
  ParseBeeswaxLog
    [csv.Row sampleHeader; csv.Row sampleRow1; csv.Row (removelast sampleRow2)]
  = inl (ErrorReadingRecord csv.ErrFieldCount).
Proof. vm_compute. reflexivity. Qed.

(** ** Numeric cells that fail to parse *)

(** A syntax error leaves 0 in the variable; a range error leaves the bound
    of the cell's sign. *)
Definition startsWithMinus (s : string) : bool :=
  match s with
  | String c _ => Ascii.eqb c "-"
  | EmptyString => false
  end.

Lemma ParseUint_range (s : string) (n : Z) :
  snd (strconv.parseUintLoop s n) = Some strconv.ErrRange ->
  fst (strconv.parseUintLoop s n) = strconv.maxUint64.
Proof.
  revert n. induction s as [|c s IH]; intros n; cbn [strconv.parseUintLoop].
  - discriminate.
  - repeat match goal with |- context [if ?b then _ else _] => destruct b end;
      cbn; try discriminate; auto.
Qed.

Lemma ParseInt_error (s : string) :
  match snd (strconv.ParseInt s) with
  | None => True
  | Some strconv.ErrSyntax => fst (strconv.ParseInt s) = 0
  | Some strconv.ErrRange =>
      fst (strconv.ParseInt s) = if startsWithMinus s then MinInt64 else MaxInt64
  end.
Proof.
  unfold strconv.ParseInt. destruct s as [|c s]; [reflexivity|].
  cbn [startsWithMinus].
  set (body := if (Ascii.eqb c "+" || Ascii.eqb c "-")%bool then s else String c s).
  destruct (strconv.ParseUint body) as [un [[]|]] eqn:Hu; [reflexivity| |].
  - assert (un = strconv.maxUint64) as ->.
    { unfold strconv.ParseUint in Hu. destruct body; [discriminate|].
      pose proof (ParseUint_range (String a body) 0) as H.
      rewrite Hu in H. apply H. reflexivity. }
    destruct (Ascii.eqb c "-"); reflexivity.
  - destruct (Ascii.eqb c "-"); cbn [negb andb];
      repeat match goal with |- context [if ?b then _ else _] => destruct b end;
      cbn; auto.
Qed.

(** ** What [ParseInt] accepts *)

(** The number the leading digits of [s] write after [n], and what follows
    them. *)
Fixpoint leadingDigits (s : string) (n : Z) : Z * string :=
  match s with
  | String c rest =>
      if isDigitByte c then leadingDigits rest (n * 10 + (byte_of c - 48))
      else (n, s)
  | EmptyString => (n, s)
  end.

(** The cell without its sign. *)
Definition unsigned (s : string) : string :=
  match s with
  | String c rest => if (Ascii.eqb c "+" || Ascii.eqb c "-")%bool then rest else s
  | EmptyString => s
  end.

Lemma isDigitByte_range (c : ascii) :
  isDigitByte c = true -> 0 <= byte_of c - 48 <= 9.
Proof. unfold isDigitByte. rewrite andb_true_iff, !Z.leb_le. lia. Qed.

Lemma leadingDigits_ge (s : string) (n : Z) :
  0 <= n -> n <= fst (leadingDigits s n).
Proof.
  revert n. induction s as [|c s IH]; intros n Hn; cbn; [lia|].
  destruct (isDigitByte c) eqn:Hc; [|cbn; lia].
  apply isDigitByte_range in Hc.
  specialize (IH (n * 10 + (byte_of c - 48)) ltac:(lia)). lia.
Qed.

(** The digit loop: a range error when the leading digits exceed 64 bits,
    else a syntax error when something follows them, else their value. *)
Lemma parseUintLoop_spec (s : string) (n : Z) :
  0 <= n <= strconv.maxUint64 ->
  strconv.parseUintLoop s n
  = let (v, rest) := leadingDigits s n in
    if strconv.maxUint64 <? v then (strconv.maxUint64, Some strconv.ErrRange)
    else match rest with
         | EmptyString => (v, None)
         | String _ _ => (0, Some strconv.ErrSyntax)
         end.
Proof.
  revert n. induction s as [|c s IH]; intros n Hn; cbn [strconv.parseUintLoop leadingDigits].
  - destruct (Z.ltb_spec strconv.maxUint64 n); [lia|reflexivity].
  - destruct (isDigitByte c) eqn:Hc.
    + apply isDigitByte_range in Hc. set (d := byte_of c - 48) in *.
      change strconv.maxUint64 with 18446744073709551615 in *.
      change (18446744073709551615 / 10 + 1) with 1844674407370955162.
      change (2 ^ 64) with 18446744073709551616.
      pose proof (leadingDigits_ge s (n * 10 + d) ltac:(lia)) as Hge.
      destruct (leadingDigits s (n * 10 + d)) as [v rest] eqn:Hld. cbn [fst] in Hge.
      destruct (Z.leb_spec 1844674407370955162 n) as [Hcut|Hcut].
      * destruct (Z.ltb_spec 18446744073709551615 v); [reflexivity|lia].
      * rewrite (Z.mod_small (n * 10)) by lia.
        destruct (Z_lt_ge_dec (n * 10 + d) 18446744073709551616) as [Hfit|Hover].
        -- rewrite (Z.mod_small (n * 10 + d)) by lia.
           destruct (Z.ltb_spec (n * 10 + d) (n * 10)) as [|_]; [lia|].
           destruct (Z.ltb_spec 18446744073709551615 (n * 10 + d)) as [|_]; [lia|].
           cbn [orb]. rewrite IH by lia. rewrite Hld. reflexivity.
        -- replace (n * 10 + d)
             with (n * 10 + d - 18446744073709551616 + 1 * 18446744073709551616) by lia.
           rewrite Z_mod_plus_full, Z.mod_small by lia.
           destruct (Z.ltb_spec (n * 10 + d - 18446744073709551616) (n * 10)) as [_|]; [|lia].
           cbn [orb]. destruct (Z.ltb_spec 18446744073709551615 v); [reflexivity|lia].
    + change strconv.maxUint64 with 18446744073709551615 in *.
      destruct (Z.ltb_spec 18446744073709551615 n); [lia|reflexivity].
Qed.

(** [ParseInt] in terms of the text of the cell: a syntax error and 0 for an
    empty cell, a bare sign, or leading digits that fit 64 bits followed by
    something else; a range error and the bound of the sign when the leading
    digits do not fit, whatever follows them; else the signed value. *)
Lemma ParseInt_spec (s : string) :
  strconv.ParseInt s
  = match unsigned s with
    | EmptyString => (0, Some strconv.ErrSyntax)
    | String _ _ =>
        let (v, rest) := leadingDigits (unsigned s) 0 in
        let neg := startsWithMinus s in
        if strconv.maxUint64 <? v
        then (if neg then MinInt64 else MaxInt64, Some strconv.ErrRange)
        else match rest with
             | String _ _ => (0, Some strconv.ErrSyntax)
             | EmptyString =>
                 if negb neg && (2^63 <=? v) then (MaxInt64, Some strconv.ErrRange)
                 else if neg && (2^63 <? v) then (MinInt64, Some strconv.ErrRange)
                 else (if neg then - v else v, None)
             end
    end.
Proof.
  destruct s as [|c s]; [reflexivity|].
  unfold strconv.ParseInt, unsigned, startsWithMinus.
  set (body := if (Ascii.eqb c "+" || Ascii.eqb c "-")%bool then s else String c s).
  destruct body as [|b tail]; [reflexivity|].
  unfold strconv.ParseUint. rewrite parseUintLoop_spec
    by (change strconv.maxUint64 with 18446744073709551615; lia).
  pose proof (leadingDigits_ge (String b tail) 0 ltac:(lia)) as Hge.
  destruct (leadingDigits (String b tail) 0) as [v rest]. cbn [fst] in Hge.
  change strconv.maxUint64 with 18446744073709551615.
  change (2 ^ 63) with 9223372036854775808.
  destruct (Z.ltb_spec 18446744073709551615 v) as [Hbig|Hfit].
  - destruct (Z.leb_spec 9223372036854775808 18446744073709551615) as [_|]; [|lia].
    destruct (Z.ltb_spec 9223372036854775808 18446744073709551615) as [_|]; [|lia].
    destruct (Ascii.eqb c "-"); reflexivity.
  - destruct rest as [|r rest]; [|reflexivity].
    destruct (Ascii.eqb c "-"); cbn [negb andb].
    + destruct (Z.ltb_spec 9223372036854775808 v); [reflexivity|].
      f_equal. unfold wrap64. change (2 ^ 63) with 9223372036854775808.
      change (2 ^ 64) with 18446744073709551616.
      destruct (Z.eq_dec v 9223372036854775808) as [->|Hne]; [reflexivity|].
      rewrite (Z.mod_small (v + _)) by lia.
      replace (v + 9223372036854775808 - 9223372036854775808) with v by lia.
      replace (- v + 9223372036854775808) with (9223372036854775808 - v) by lia.
      destruct (Z.eq_dec v 0) as [->|Hnz]; [reflexivity|].
      rewrite Z.mod_small by lia. lia.
    + destruct (Z.leb_spec 9223372036854775808 v); [reflexivity|].
      f_equal. apply wrap64_small. change (2 ^ 63) with 9223372036854775808. lia.
Qed.

Lemma dollars_0 : dollars 0 = 0%float.
Proof. reflexivity. Qed.

(** Adding +0 leaves every float but -0 as it is. *)
Lemma float_add_0 (x : float) :
  Prim2SF x <> S754_zero true -> (x + 0)%float = x.
Proof.
  intros Hx. apply Prim2SF_inj. rewrite FloatAxioms.add_spec.
  change (Prim2SF 0%float) with (S754_zero false).
  destruct (Prim2SF x) as [[]| | |]; try reflexivity. congruence.
Qed.

(** A cell with a syntax error leaves its total as it was, the total -0
    apart (which no sum from +0 reaches). *)
Lemma syntax_error_keeps_total colMap (record : list string) summary :
  snd (strconv.ParseInt (getValueSafely colMap record "BID_PRICE_MICROS_USD"))
  = Some strconv.ErrSyntax ->
  Prim2SF (TotalBidAmount summary) <> S754_zero true ->
  TotalBidAmount (processRecord colMap record summary) = TotalBidAmount summary.
Proof.
  intros Herr Hnz. cbn [processRecord TotalBidAmount].
  pose proof (ParseInt_error (getValueSafely colMap record "BID_PRICE_MICROS_USD")) as H.
  rewrite Herr in H. rewrite H, dollars_0. apply float_add_0. exact Hnz.
Qed.





(** ** Bid times: the order of instants *)

(** [t] is strictly earlier than [u]. *)
Definition earlier (t u : time.Time) : Prop :=
  time.sec t < time.sec u
  \/ (time.sec t = time.sec u /\ time.Nanosecond t < time.Nanosecond u).

Lemma Before_true t u : time.Before t u = true <-> earlier t u.
Proof.
  unfold time.Before, earlier.
  rewrite orb_true_iff, andb_true_iff, !Z.ltb_lt, Z.eqb_eq. reflexivity.
Qed.

Lemma Before_false t u : time.Before t u = false <-> ~ earlier t u.
Proof.
  rewrite <- Before_true. destruct (time.Before t u); split; congruence.
Qed.

Lemma After_Before t u : time.After t u = time.Before u t.
Proof.
  unfold time.After, time.Before. rewrite (Z.eqb_sym (time.sec t)). reflexivity.
Qed.

Lemma earlier_irrefl t : ~ earlier t t.
Proof. unfold earlier. lia. Qed.


Lemma earlier_farPast_nonzero t : earlier farPast t -> time.IsZero t = false.
Proof.
  unfold earlier, time.IsZero. change (time.sec farPast) with 62135596800.
  intros H. apply andb_false_iff. left. apply Z.eqb_neq. lia.
Qed.



(** ** Bid times: what a row without one changes *)

Definition timed (colMap : gmap string Z) (record : list string) : bool :=
  negb (time.IsZero (bidTimeOf colMap record)).

(** The bid times of the rows that have one, in file order. *)
Definition timedTimes (colMap : gmap string Z) (rows : list (list string))
  : list time.Time :=
  map (bidTimeOf colMap) (List.filter (timed colMap) rows).

Lemma processRecord_untimed colMap record summary :
  timed colMap record = false ->
  processRecord colMap record summary
  = {| TotalRecords := wrap64 (TotalRecords summary + 1);
       TotalImpressions := wrap64 (TotalImpressions summary + 1);
       TotalClicks :=
         wrap64 (TotalClicks summary
                 + fst (strconv.Atoi (getValueSafely colMap record "CLICKS")));
       TotalConversions :=
         wrap64 (TotalConversions summary
                 + fst (strconv.Atoi (getValueSafely colMap record "CONVERSIONS")));
       TotalBidAmount := (TotalBidAmount summary + dollars (bidPriceOf colMap record))%float;
       TotalWinCost := (TotalWinCost summary + dollars (winCostOf colMap record))%float;
       CTR := CTR summary;
       AverageBidPrice := AverageBidPrice summary;
       AverageWinRate := AverageWinRate summary;
       TimeRange := TimeRange summary;
       DeviceBreakdown :=
         incrNonEmpty (getValueSafely colMap record "PLATFORM_DEVICE_TYPE")
           (DeviceBreakdown summary);
       BrowserBreakdown :=
         incrNonEmpty (getValueSafely colMap record "PLATFORM_BROWSER")
           (BrowserBreakdown summary);
       OSBreakdown :=
         incrNonEmpty (getValueSafely colMap record "PLATFORM_OS") (OSBreakdown summary);
       GeoBreakdown :=
         incrNonEmpty (getValueSafely colMap record "GEO_COUNTRY") (GeoBreakdown summary);
       HourlyBreakdown := HourlyBreakdown summary;
       DomainBreakdown :=
         incrNonEmpty (getValueSafely colMap record "DOMAIN") (DomainBreakdown summary);
       CampaignPerformance :=
         updateCampaign (getValueSafely colMap record "CAMPAIGN_ID")
           (fst (strconv.Atoi (getValueSafely colMap record "CLICKS")))
           (fst (strconv.Atoi (getValueSafely colMap record "CONVERSIONS")))
           (winCostOf colMap record) (CampaignPerformance summary) |}.
Proof.
  unfold timed, bidTimeOf, processRecord. intros H. rewrite H. reflexivity.
Qed.

Lemma processRecord_timed colMap record summary :
  timed colMap record = true ->
  TimeRange (processRecord colMap record summary)
  = updateTimeRange (bidTimeOf colMap record) (TimeRange summary)
  /\ HourlyBreakdown (processRecord colMap record summary)
     = incr (time.FormatHour (bidTimeOf colMap record)) (HourlyBreakdown summary).
Proof.
  unfold timed, bidTimeOf, processRecord. intros H.
  cbn [TimeRange HourlyBreakdown]. rewrite H. split; reflexivity.
Qed.



Lemma aggregate_TimeRange colMap (rows : list (list string)) :
  forall summary,
  TimeRange (aggregate colMap rows summary)
  = fold_left (fun r t => updateTimeRange t r) (timedTimes colMap rows)
      (TimeRange summary).
Proof.
  unfold timedTimes.
  induction rows as [|r rows IH]; intros summary; [reflexivity|].
  rewrite aggregate_cons, IH. cbn [List.filter].
  destruct (timed colMap r) eqn:Ht.
  - cbn [map fold_left]. rewrite (proj1 (processRecord_timed _ _ _ Ht)). reflexivity.
  - rewrite processRecord_untimed by exact Ht. reflexivity.
Qed.


Lemma timedTimes_bidTimeOf colMap (rows : list (list string)) t :
  In t (timedTimes colMap rows) <->
  exists r, In r rows /\ bidTimeOf colMap r = t /\ timed colMap r = true.
Proof.
  unfold timedTimes. rewrite in_map_iff. split.
  - intros (r & <- & Hin). apply filter_In in Hin as [Hin Ht]. exists r. auto.
  - intros (r & Hin & <- & Ht). exists r. split; [reflexivity|].
    apply filter_In. auto.
Qed.

(** The first row that carries a bid time strictly between the sentinels
    sets both ends of the range to it. *)
Lemma first_timestamp_sets_range colMap (rows : list (list string)) record :
  Forall (fun r => timed colMap r = false) rows ->
  earlier farPast (bidTimeOf colMap record) ->
  earlier (bidTimeOf colMap record) farFuture ->
  TimeRange (aggregate colMap (rows ++ [record]) initialSummary)
  = (bidTimeOf colMap record, bidTimeOf colMap record).
Proof.
  intros Hrows Hpast Hfut.
  rewrite aggregate_TimeRange. unfold timedTimes. rewrite List.filter_app.
  assert (List.filter (timed colMap) rows = []) as ->.
  { apply filter_nil_iff. rewrite Forall_forall in Hrows.
    intros r Hr. apply Hrows, list_elem_of_In, Hr. }
  cbn [app List.filter]. unfold timed.
  rewrite (earlier_farPast_nonzero _ Hpast). cbn [negb map fold_left].
  cbn [initialSummary TimeRange]. unfold updateTimeRange. cbn [fst snd].
  rewrite After_Before.
  rewrite (proj2 (Before_true _ _) Hfut), (proj2 (Before_true _ _) Hpast).
  reflexivity.
Qed.


(** The column map of the sample header: every name is found as it is. *)
Definition sampleColMap : gmap string Z := indexHeader sampleHeader 0 ∅.

(** A header that holds every required name as it is resolves to its own
    index map. *)
Lemma resolveColumns_exact (cols : list string) (colMap : gmap string Z) :
  Forall (fun col => is_Some (colMap !! col)) cols ->
  resolveColumns cols colMap = inr colMap.
Proof.
  induction 1 as [|col cols [i Hi] _ IH]; [reflexivity|].
  cbn [resolveColumns]. rewrite Hi. exact IH.
Qed.

Lemma sampleColMap_resolved :
  resolveColumns requiredCols (indexHeader sampleHeader 0 ∅) = inr sampleColMap.
Proof.
  apply resolveColumns_exact.
  repeat (constructor; [eexists; vm_compute; reflexivity|]). constructor.
Qed.




(** C5. The first row with a bid time before 1970 moves the minimum of the
    range but not the maximum, which stays at the sentinel; the first row
    with a bid time in the year 9999 moves the maximum but not the minimum. *)
Theorem first_timestamp_before_1970 :
  (exists summary,
     ParseBeeswaxLog
       [csv.Row sampleHeader; csv.Row (rowWith "500000" "1969-12-31 23:59:59" "c1")]
     = inr summary
     /\ time.IsZero (time.Date 1969 12 31 23 59 59 0) = false
     /\ TimeRange summary = (time.Date 1969 12 31 23 59 59 0, farPast)
     /\ snd (TimeRange summary) <> time.Date 1969 12 31 23 59 59 0)
  /\ (exists summary,
       ParseBeeswaxLog
         [csv.Row sampleHeader; csv.Row (rowWith "500000" "9999-06-01 12:00:00" "c1")]
       = inr summary
       /\ time.IsZero (time.Date 9999 6 1 12 0 0 0) = false
       /\ TimeRange summary = (farFuture, time.Date 9999 6 1 12 0 0 0)
       /\ fst (TimeRange summary) <> time.Date 9999 6 1 12 0 0 0).
Proof.
  split; eexists; (split; [vm_compute; reflexivity|]);
    repeat (split; [vm_compute; reflexivity|]); vm_compute; discriminate.
Qed.

(** ** Campaign entries and derived metrics *)

(** What holds of the campaign map after [n] rows: keys are not empty,
    impressions count between 1 and [n], and the CTR field is still 0. *)
Definition campaignsAfter (n : Z) (m : gmap string CampaignMetrics.t) : Prop :=
  forall id c, m !! id = Some c ->
    id <> "" /\ 1 <= CampaignMetrics.Impressions c <= n
    /\ CampaignMetrics.CTR c = 0%float.

Lemma updateCampaign_after (n : Z) id clicks conversions winCost m :
  0 <= n -> n + 1 < 2^63 ->
  campaignsAfter n m ->
  campaignsAfter (n + 1) (updateCampaign id clicks conversions winCost m).
Proof.
  intros H0 Hn Hm id' c. unfold updateCampaign.
  destruct (String.eqb_spec id "") as [->|Hid].
  - intros Hc. destruct (Hm id' c Hc) as (? & ? & ?). repeat split; auto; lia.
  - destruct (decide (id = id')) as [<-|Hne].
    + rewrite lookup_insert_eq. intros [= <-]. cbn.
      destruct (m !! id) as [c0|] eqn:Hc0; cbn.
      * destruct (Hm id c0 Hc0) as (_ & Himp & Hctr).
        rewrite wrap64_small by lia. repeat split; auto; lia.
      * rewrite wrap64_small by lia. repeat split; auto; lia.
    + rewrite lookup_insert_ne by exact Hne.
      intros Hc. destruct (Hm id' c Hc) as (? & ? & ?). repeat split; auto; lia.
Qed.

Lemma aggregate_campaigns colMap (rows : list (list string)) :
  forall (n : Z) summary,
  0 <= n -> n + Z.of_nat (List.length rows) < 2^63 ->
  campaignsAfter n (CampaignPerformance summary) ->
  campaignsAfter (n + Z.of_nat (List.length rows))
    (CampaignPerformance (aggregate colMap rows summary)).
Proof.
  induction rows as [|r rows IH]; intros n summary H0 Hn Hm.
  - cbn. rewrite Z.add_0_r. exact Hm.
  - rewrite aggregate_cons. cbn [List.length] in *.
    replace (n + Z.of_nat (S (List.length rows)))
      with ((n + 1) + Z.of_nat (List.length rows)) by lia.
    apply IH; [lia|lia|].
    cbn [processRecord CampaignPerformance].
    apply updateCampaign_after; [lia|lia|exact Hm].
Qed.

Lemma finalize_campaign summary id c :
  CampaignPerformance (finalize summary) !! id = Some c ->
  exists c0, CampaignPerformance summary !! id = Some c0 /\ c = campaignCTR c0.
Proof.
  cbn [finalize CampaignPerformance]. rewrite lookup_fmap.
  destruct (CampaignPerformance summary !! id) as [c0|]; [|discriminate].
  intros [= <-]. eauto.
Qed.

Lemma aggregate_CTR_untouched colMap (rows : list (list string)) :
  forall summary,
  CTR (aggregate colMap rows summary) = CTR summary
  /\ AverageBidPrice (aggregate colMap rows summary) = AverageBidPrice summary
  /\ AverageWinRate (aggregate colMap rows summary) = AverageWinRate summary.
Proof.
  induction rows as [|r rows IH]; intros summary; [repeat split|].
  rewrite aggregate_cons. destruct (IH (processRecord colMap r summary)) as (-> & -> & ->).
  repeat split.
Qed.




(** C10. Every entry of the campaign map of a returned summary has a key
    that is not empty and at least one impression; so the finaliser's guard
    holds for it and its click-through rate is the computed ratio. *)
Theorem campaign_entries (input : list csv.Item) summary :
  ParseBeeswaxLog input = inr summary ->
  Z.of_nat (List.length input) <= 2^63 ->
  forall id c, CampaignPerformance summary !! id = Some c ->
    id <> ""
    /\ 1 <= CampaignMetrics.Impressions c
    /\ CampaignMetrics.CTR c
       = (float64_of_int (CampaignMetrics.Clicks c)
          / float64_of_int (CampaignMetrics.Impressions c) * 100)%float.
Proof.
  intros Hparse Hlen id c Hc.
  apply ParseBeeswaxLog_inr in Hparse as (header & rows & colMap & -> & _ & ->).
  cbn [List.length] in Hlen. rewrite length_map in Hlen.
  apply finalize_campaign in Hc as (c0 & Hc0 & ->).
  assert (campaignsAfter 0 (CampaignPerformance initialSummary)) as Hinit.
  { intros id' c'. cbn. rewrite lookup_empty. discriminate. }
  destruct (aggregate_campaigns colMap rows 0 initialSummary
              ltac:(lia) ltac:(lia) Hinit id c0 Hc0) as (Hid & Himp & _).
  unfold campaignCTR.
  destruct (Z.ltb_spec 0 (CampaignMetrics.Impressions c0)) as [Hpos|Hle]; [|lia].
  cbn. repeat split; [exact Hid|lia].
Qed.

Lemma campaign_entries_witness :
  exists summary c,
    ParseBeeswaxLog sampleInput = inr summary
    /\ CampaignPerformance summary !! "c1" = Some c
    /\ 1 <= CampaignMetrics.Impressions c.
Proof.
  destruct (ParseBeeswaxLog sampleInput) as [err|summary] eqn:Hparse;
    [vm_compute in Hparse; discriminate Hparse|].
  assert (CampaignPerformance summary !! "c1"
          = Some (CampaignMetrics.mk 2 1 0 0.4 50)) as Hc.
  { change (match @inr Error _ summary with
            | inr s => CampaignPerformance s !! "c1"
            | inl _ => None
            end = Some (CampaignMetrics.mk 2 1 0 0.4 50)).
    rewrite <- Hparse. vm_compute. reflexivity. }
  exists summary, (CampaignMetrics.mk 2 1 0 0.4 50).
  split; [reflexivity|]. split; [exact Hc|].
  apply (campaign_entries sampleInput summary Hparse) with (id := "c1");
    [vm_compute; discriminate|exact Hc].
Defined.

(** ** The total bid amount *)

(** The float64 sum of the rows' bid prices in dollars, in file order. *)
Definition sumDollars (colMap : gmap string Z) (rows : list (list string))
  (start : float) : float :=
  fold_left (fun acc r => (acc + dollars (bidPriceOf colMap r))%float) rows start.

(** The exact sum of the rows' bid prices in micro-dollars. *)
Definition sumMicros (colMap : gmap string Z) (rows : list (list string)) : Z :=
  fold_right (fun r acc => bidPriceOf colMap r + acc) 0 rows.

Lemma aggregate_TotalBidAmount colMap (rows : list (list string)) :
  forall summary,
  TotalBidAmount (aggregate colMap rows summary)
  = sumDollars colMap rows (TotalBidAmount summary).
Proof.
  induction rows as [|r rows IH]; intros summary; [reflexivity|].
  rewrite aggregate_cons, IH. reflexivity.
Qed.

Lemma sumMicros_Permutation colMap (rows rows' : list (list string)) :
  Permutation rows rows' -> sumMicros colMap rows = sumMicros colMap rows'.
Proof.
  unfold sumMicros.
  induction 1 as [|r l l' _ IH|r r' l|l l' l'' _ IH1 _ IH2]; cbn [fold_right]; lia.
Qed.

(** C8, as the code has it. The total bid amount is the float64 sum, taken
    from 0 in file order, of float64(bid price micros) / 1000000 over the
    data rows. The exact sum of the micro-dollar bid prices is the same for
    every order of the rows. *)
Theorem total_bid_amount (header : list string) (rows : list (list string))
  colMap summary :
  resolveColumns requiredCols (indexHeader header 0 ∅) = inr colMap ->
  ParseBeeswaxLog (csv.Row header :: map csv.Row rows) = inr summary ->
  TotalBidAmount summary = sumDollars colMap rows 0%float
  /\ forall rows', Permutation rows rows' ->
       sumMicros colMap rows' = sumMicros colMap rows.
Proof.
  intros Hres Hparse. split.
  - apply ParseBeeswaxLog_inr in Hparse as (header' & rows' & colMap' & Heq & Hres' & ->).
    injection Heq as <- Hrows.
    apply (f_equal (map (fun i => match i with
                                  | csv.Row r => r
                                  | csv.Broken _ => []
                                  end))) in Hrows.
    rewrite !map_map, !map_id in Hrows. subst rows'.
    rewrite Hres in Hres'. injection Hres' as <-.
    cbn [finalize TotalBidAmount]. apply aggregate_TotalBidAmount.
  - intros rows' Hperm. symmetry. apply sumMicros_Permutation. exact Hperm.
Qed.

Lemma total_bid_amount_witness :
  exists summary,
    ParseBeeswaxLog sampleInput = inr summary
    /\ TotalBidAmount summary
       = (0 + dollars 500000 + dollars 600000)%float.
Proof.
  destruct (ParseBeeswaxLog sampleInput) as [err|summary] eqn:Hparse;
    [vm_compute in Hparse; discriminate Hparse|].
  exists summary. split; [reflexivity|].
  destruct (total_bid_amount sampleHeader [sampleRow1; sampleRow2] sampleColMap
              summary sampleColMap_resolved Hparse) as [-> _].
  vm_compute. reflexivity.
Defined.

(** Three rows bidding 0.1, 0.2 and 0.3 dollars, in two orders: the totals
    differ in the last bit. *)
Lemma total_bid_amount_counterexample :
  let a := rowWith "100000" "2024-07-01 10:00:00" "c1" in
  let b := rowWith "200000" "2024-07-01 10:00:00" "c1" in
  let c := rowWith "300000" "2024-07-01 10:00:00" "c1" in
  exists s1 s2,
    ParseBeeswaxLog [csv.Row sampleHeader; csv.Row a; csv.Row b; csv.Row c] = inr s1
    /\ ParseBeeswaxLog [csv.Row sampleHeader; csv.Row c; csv.Row b; csv.Row a] = inr s2
    /\ Permutation [a; b; c] [c; b; a]
    /\ TotalBidAmount s1 = 0x1.3333333333334p-1%float
    /\ TotalBidAmount s2 = 0x1.3333333333333p-1%float
    /\ TotalBidAmount s1 <> TotalBidAmount s2.
Proof.
  cbv zeta. eexists. eexists.
  split; [vm_compute; reflexivity|]. split; [vm_compute; reflexivity|].
  split.
  { eapply perm_trans; [apply perm_swap|]. eapply perm_trans; [apply perm_skip, perm_swap|].
    apply perm_swap. }
  split; [vm_compute; reflexivity|]. split; [vm_compute; reflexivity|].
  vm_compute. intros H. apply (f_equal Prim2SF) in H. vm_compute in H. discriminate H.
Qed.

(** ** The result store *)

Section Store.

Context {Any : Type} `{L : processor.Lib Any}.

Import processor.

(** The path [GetAnalysisResult] and [IsLogFileProcessed] look at. *)
Definition resultsPathOf (s : LogProcessorService) (userID fileID : string) : string :=
  Join [basePath s; "reports"; userID; analysisFile fileID].

Lemma IsLogFileProcessed_exists (s : LogProcessorService)
  (disk : gmap string string) (fileID userID : string) :
  IsLogFileProcessed s disk fileID userID
  = (bool_decide (is_Some (disk !! resultsPathOf s userID fileID)), None).
Proof.
  unfold IsLogFileProcessed, resultsPathOf.
  destruct (disk !! _) as [data|] eqn:Hd.
  - rewrite bool_decide_eq_true_2 by eauto. reflexivity.
  - rewrite bool_decide_eq_false_2; [reflexivity|]. intros [? [=]].
Qed.

Lemma GetAnalysisResult_read (s : LogProcessorService)
  (disk : gmap string string) (fileID userID data : string) :
  disk !! resultsPathOf s userID fileID = Some data ->
  GetAnalysisResult s disk fileID userID
  = match Unmarshal data with
    | Some result => inr result
    | None => inl FailedToParse
    end.
Proof.
  unfold GetAnalysisResult, resultsPathOf. intros ->. reflexivity.
Qed.


End Store.

(** A small instance of the library interface: paths joined with slashes,
    and a codec for results whose payload is a string and whose other fields
    are those of [sampleResult]. *)
Definition sampleResult (payload : string) : processor.LogAnalysisResult string :=
  processor.mkResult "f1" "u1" "log.csv" (time.Date 2024 7 1 12 0 0 0)
    payload "completed" "".

#[local] Instance sampleLib : processor.Lib string := {|
  processor.Join := String.concat "/";
  processor.MarshalIndent := fun r => Some (processor.Summary r);
  processor.Unmarshal := fun data => Some (sampleResult data) |}.


(** * Further properties of the parser *)

(** ** When the parse returns a summary *)

Lemma resolved_validHeader (header : list string) colMap :
  resolveColumns requiredCols (indexHeader header 0 ∅) = inr colMap ->
  validHeader header /\ covers header colMap.
Proof.
  intros Hres.
  pose proof (resolveColumns_spec header requiredCols _
                (covers_indexHeader header) requiredCols_upper) as Hspec.
  destruct (List.filter (fun col => negb (matches header col)) requiredCols)
    as [|col l] eqn:Hf.
  - destruct Hspec as (colMap' & Hres' & Hcov & _).
    rewrite Hres in Hres'. injection Hres' as <-. split; [|exact Hcov].
    intros col Hin. apply matches_true. rewrite filter_nil_iff in Hf.
    apply negb_false_iff, Hf, Hin.
  - rewrite Hres in Hspec. discriminate Hspec.
Qed.

Lemma ParseBeeswaxLog_rows_inv (header : list string) (rows : list (list string))
  colMap summary :
  resolveColumns requiredCols (indexHeader header 0 ∅) = inr colMap ->
  ParseBeeswaxLog (csv.Row header :: map csv.Row rows) = inr summary ->
  summary = finalize (aggregate colMap rows initialSummary).
Proof.
  intros Hres Hparse. rewrite ParseBeeswaxLog_header, Hres in Hparse.
  destruct (recordLoop _ _ _ _) as [err|s] eqn:Hloop; [discriminate|].
  injection Hparse as <-.
  apply recordLoop_inr in Hloop as (rows' & Heq & ->).
  apply (f_equal (map (fun i => match i with
                                | csv.Row r => r
                                | csv.Broken _ => []
                                end))) in Heq.
  rewrite !map_map, !map_id in Heq. subst rows'. reflexivity.
Qed.

(** The first item that is not a record of [n] fields, and the error [Read]
    returns for it. *)
Fixpoint firstFailure (n : Z) (items : list csv.Item) : option csv.Error :=
  match items with
  | [] => None
  | csv.Broken msg :: _ => Some (csv.ErrRead msg)
  | csv.Row record :: rest =>
      if Z.of_nat (List.length record) =? n then firstFailure n rest
      else Some csv.ErrFieldCount
  end.

(** The records before the first failure. *)
Fixpoint rowsBefore (n : Z) (items : list csv.Item) : list (list string) :=
  match items with
  | csv.Row record :: rest =>
      if Z.of_nat (List.length record) =? n then record :: rowsBefore n rest else []
  | _ => []
  end.

Lemma recordLoop_outcome colMap (n : Z) (items : list csv.Item) :
  0 < n ->
  forall summary,
  recordLoop colMap n items summary
  = match firstFailure n items with
    | Some err => inl (ErrorReadingRecord err)
    | None => inr (aggregate colMap (rowsBefore n items) summary)
    end.
Proof.
  intros Hn. induction items as [|[record|msg] items IH]; intros summary.
  - reflexivity.
  - cbn [recordLoop csv.Read csv.input csv.FieldsPerRecord firstFailure rowsBefore].
    destruct (Z.eqb_spec (Z.of_nat (List.length record)) n) as [Hlen|Hlen].
    + rewrite checkFields_same by assumption. cbn. apply IH.
    + rewrite checkFields_other by assumption. reflexivity.
  - reflexivity.
Qed.

(** X1. A parse fails at the header exactly when the input is empty or starts
    with a failure of the reader; nothing after the first item matters. *)
Theorem header_read_failure (input : list csv.Item) :
  (exists err, ParseBeeswaxLog input = inl (FailedToReadHeader err))
  <-> input = [] \/ exists msg rest, input = csv.Broken msg :: rest.
Proof.
  split.
  - intros [err Herr]. destruct input as [|[header|msg] rest]; [left; reflexivity| |eauto].
    exfalso. rewrite ParseBeeswaxLog_header in Herr.
    destruct (resolveColumns _ _) as [e|colMap] eqn:Hres.
    + pose proof (resolveColumns_spec header requiredCols _
                    (covers_indexHeader header) requiredCols_upper) as Hspec.
      destruct (List.filter _ requiredCols); [destruct Hspec as (? & H & _)|];
        rewrite Hres in *; congruence.
    + destruct (Z.ltb_spec 0 (Z.of_nat (List.length header))) as [Hpos|Hzero].
      * rewrite recordLoop_outcome in Herr by exact Hpos.
        destruct (firstFailure _ rest); discriminate.
      * apply resolved_validHeader in Hres as [Hv _].
        apply validHeader_nonempty in Hv. destruct header; [congruence|cbn in Hzero; lia].
  - intros [->|(msg & rest & ->)]; eexists; reflexivity.
Qed.

(** X2. After a header that resolves, the parse returns a summary exactly
    when every item that follows is a record with as many fields as the
    header; the summary is then the finalised fold of those records.
    Otherwise the first item that is not such a record decides the error,
    whatever comes after it. *)
Theorem parse_outcome (header : list string) (items : list csv.Item) colMap :
  resolveColumns requiredCols (indexHeader header 0 ∅) = inr colMap ->
  let n := Z.of_nat (List.length header) in
  ParseBeeswaxLog (csv.Row header :: items)
  = match firstFailure n items with
    | Some err => inl (ErrorReadingRecord err)
    | None => inr (finalize (aggregate colMap (rowsBefore n items) initialSummary))
    end
  /\ (firstFailure n items = None
      <-> Forall (fun item => exists record,
                    item = csv.Row record /\ List.length record = List.length header)
            items)
  /\ (forall good msg rest,
        Forall (fun r => List.length r = List.length header) good ->
        firstFailure n (map csv.Row good ++ csv.Broken msg :: rest)
        = Some (csv.ErrRead msg))
  /\ (forall good record rest,
        Forall (fun r => List.length r = List.length header) good ->
        List.length record <> List.length header ->
        firstFailure n (map csv.Row good ++ csv.Row record :: rest)
        = Some csv.ErrFieldCount).
Proof.
  intros Hres n.
  assert (0 < n) as Hn.
  { apply resolved_validHeader in Hres as [Hv _]. apply validHeader_nonempty in Hv.
    subst n. destruct header; [congruence|cbn; lia]. }
  split; [|split; [|split]].
  - rewrite ParseBeeswaxLog_header, Hres, recordLoop_outcome by exact Hn.
    subst n. destruct (firstFailure _ items); reflexivity.
  - induction items as [|[record|msg] items IH]; cbn [firstFailure].
    + split; [constructor|reflexivity].
    + destruct (Z.eqb_spec (Z.of_nat (List.length record)) n) as [Hlen|Hlen].
      * rewrite IH. split.
        -- intros H. constructor; [|exact H]. exists record. split; [reflexivity|lia].
        -- intros H. apply Forall_cons in H as [_ H]. exact H.
      * split; [discriminate|]. intros H. apply Forall_cons in H as [(r & [= <-] & Hr) _].
        subst n. lia.
    + split; [discriminate|]. intros H. apply Forall_cons in H as [(r & [=] & _) _].
  - intros good msg rest Hgood. induction Hgood as [|r good Hr _ IH]; [reflexivity|].
    cbn [map app firstFailure]. subst n. rewrite Hr, Z.eqb_refl. exact IH.
  - intros good record rest Hgood Hrec. induction Hgood as [|r good Hr _ IH].
    + cbn [map app firstFailure].
      destruct (Z.eqb_spec (Z.of_nat (List.length record)) n); [subst n; lia|reflexivity].
    + cbn [map app firstFailure]. subst n. rewrite Hr, Z.eqb_refl. exact IH.
Qed.

Lemma parse_outcome_witness :
  ParseBeeswaxLog
    [csv.Row sampleHeader; csv.Row sampleRow1; csv.Broken "unexpected EOF";
     csv.Row sampleRow2]
  = inl (ErrorReadingRecord (csv.ErrRead "unexpected EOF")).
Proof.
  destruct (parse_outcome sampleHeader
              [csv.Row sampleRow1; csv.Broken "unexpected EOF"; csv.Row sampleRow2]
              sampleColMap sampleColMap_resolved) as (Hparse & _).
  rewrite Hparse. reflexivity.
Defined.


(** ** What the totals and the breakdowns count *)

Lemma wrap64_add_l (a b : Z) : wrap64 (wrap64 a + b) = wrap64 (a + b).
Proof.
  unfold wrap64.
  replace ((a + 2^63) mod 2^64 - 2^63 + b + 2^63) with ((a + 2^63) mod 2^64 + b) by lia.
  rewrite Zplus_mod_idemp_l. f_equal. f_equal. lia.
Qed.

Lemma wrap64_idem (a : Z) : wrap64 (wrap64 a) = wrap64 a.
Proof.
  pose proof (wrap64_add_l a 0) as H. rewrite !Z.add_0_r in H. exact H.
Qed.

(** The number of rows that satisfy [p]. *)
Definition countRows (p : list string -> bool) (rows : list (list string)) : Z :=
  Z.of_nat (List.length (List.filter p rows)).

(** The sum of [f] over the rows. *)
Definition sumRows (f : list string -> Z) (rows : list (list string)) : Z :=
  fold_right (fun r acc => f r + acc) 0 rows.

(** A map entry for a count: absent at 0. *)
Definition asCount (n : Z) : option Z := if n =? 0 then None else Some n.

(** A counter that met [n] increments since [o]. *)
Definition bump (n : Z) (o : option Z) : option Z :=
  if n =? 0 then o else Some (wrap64 (default 0 o + n)).

Lemma countRows_cons p r rows :
  countRows p (r :: rows) = (if p r then 1 else 0) + countRows p rows.
Proof.
  unfold countRows. cbn [List.filter]. destruct (p r); cbn [List.length]; lia.
Qed.

Lemma countRows_range p rows : 0 <= countRows p rows <= Z.of_nat (List.length rows).
Proof.
  unfold countRows. pose proof (List.filter_length_le p rows). lia.
Qed.

Lemma countRows_ext p q rows :
  (forall r, p r = q r) -> countRows p rows = countRows q rows.
Proof.
  intros H. unfold countRows. rewrite (List.filter_ext _ _ H). reflexivity.
Qed.




Lemma incr_lookup k k' (m : gmap string Z) :
  incr k m !! k'
  = if String.eqb k k' then Some (wrap64 (default 0 (m !! k') + 1)) else m !! k'.
Proof.
  unfold incr. destruct (String.eqb_spec k k') as [->|Hne].
  - apply lookup_insert_eq.
  - apply lookup_insert_ne, Hne.
Qed.

(** A map field that the loop increments at [key r] for the rows with
    [cond r] holds, at every key, the number of those rows. *)
Lemma counting_fold colMap (field : BeeswaxLogSummary -> gmap string Z)
  (cond : list string -> bool) (key : list string -> string) :
  (forall r s, field (processRecord colMap r s)
               = if cond r then incr (key r) (field s) else field s) ->
  forall rows s k,
  field (aggregate colMap rows s) !! k
  = bump (countRows (fun r => cond r && String.eqb (key r) k) rows) (field s !! k).
Proof.
  intros Hstep. induction rows as [|r rows IH]; intros s k; [reflexivity|].
  rewrite aggregate_cons, IH, Hstep, countRows_cons.
  pose proof (countRows_range (fun r => cond r && String.eqb (key r) k) rows) as Hc.
  set (c := countRows _ rows) in *.
  destruct (cond r); cbn [andb]; [|reflexivity].
  rewrite incr_lookup. destruct (String.eqb (key r) k); [|reflexivity].
  unfold bump. destruct (Z.eqb_spec c 0) as [->|Hc0].
  - reflexivity.
  - destruct (Z.eqb_spec (1 + c) 0); [lia|]. cbn [default id].
    rewrite wrap64_add_l. f_equal. f_equal. lia.
Qed.

(** An integer field to which the loop adds [f r] holds the wrapped sum. *)
Lemma summing_fold colMap (field : BeeswaxLogSummary -> Z) (f : list string -> Z) :
  (forall r s, field (processRecord colMap r s) = wrap64 (field s + f r)) ->
  forall rows s,
  wrap64 (field s) = field s ->
  field (aggregate colMap rows s) = wrap64 (field s + sumRows f rows).
Proof.
  intros Hstep. induction rows as [|r rows IH]; intros s Hs.
  - cbn. rewrite Z.add_0_r. symmetry. exact Hs.
  - rewrite aggregate_cons, IH, Hstep by (rewrite Hstep; apply wrap64_idem).
    rewrite wrap64_add_l. cbn [sumRows fold_right]. f_equal. unfold sumRows. lia.
Qed.

(** The rows whose cell in column [col] is [k]. *)
Definition cellCount (colMap : gmap string Z) (col k : string)
  (rows : list (list string)) : Z :=
  countRows (fun r => String.eqb (getValueSafely colMap r col) k) rows.

Lemma breakdown_lookup colMap (field : BeeswaxLogSummary -> gmap string Z) (col : string) :
  (forall r s, field (processRecord colMap r s)
               = incrNonEmpty (getValueSafely colMap r col) (field s)) ->
  field initialSummary = ∅ ->
  forall rows k,
  Z.of_nat (List.length rows) < 2^63 ->
  field (aggregate colMap rows initialSummary) !! k
  = if String.eqb k "" then None else asCount (cellCount colMap col k rows).
Proof.
  intros Hstep Hinit rows k Hlen.
  rewrite (counting_fold colMap field
             (fun r => negb (String.eqb (getValueSafely colMap r col) ""))
             (fun r => getValueSafely colMap r col)).
  2:{ intros r s. rewrite Hstep. unfold incrNonEmpty.
      destruct (String.eqb _ ""); reflexivity. }
  rewrite Hinit, lookup_empty. unfold bump, asCount, cellCount.
  destruct (String.eqb_spec k "") as [->|Hk].
  - rewrite (countRows_ext _ (fun _ => false)).
    + unfold countRows. clear. induction rows; [reflexivity|assumption].
    + intros r. destruct (String.eqb _ ""); reflexivity.
  - rewrite (countRows_ext _ (fun r => String.eqb (getValueSafely colMap r col) k)).
    + pose proof (countRows_range
                    (fun r => String.eqb (getValueSafely colMap r col) k) rows) as Hc.
      destruct (Z.eqb _ 0); [reflexivity|]. cbn [default].
      rewrite wrap64_small by lia. reflexivity.
    + intros r. destruct (String.eqb_spec (getValueSafely colMap r col) k) as [->|Hne].
      * apply String.eqb_neq in Hk. rewrite Hk. reflexivity.
      * apply andb_false_r.
Qed.

(** X4. Each of the five cell breakdowns of a returned summary maps every
    value other than the empty string to the number of data rows whose cell
    in the breakdown's column is that value, has no entry for a value no row
    carries, and never has an entry for the empty string. *)
Theorem breakdown_counts (header : list string) (rows : list (list string))
  colMap summary :
  resolveColumns requiredCols (indexHeader header 0 ∅) = inr colMap ->
  ParseBeeswaxLog (csv.Row header :: map csv.Row rows) = inr summary ->
  Z.of_nat (List.length rows) < 2^63 ->
  forall k,
  let entry col := if String.eqb k "" then None else asCount (cellCount colMap col k rows) in
  DeviceBreakdown summary !! k = entry "PLATFORM_DEVICE_TYPE"
  /\ BrowserBreakdown summary !! k = entry "PLATFORM_BROWSER"
  /\ OSBreakdown summary !! k = entry "PLATFORM_OS"
  /\ GeoBreakdown summary !! k = entry "GEO_COUNTRY"
  /\ DomainBreakdown summary !! k = entry "DOMAIN".
Proof.
  intros Hres Hparse Hlen k entry.
  rewrite (ParseBeeswaxLog_rows_inv header rows colMap summary Hres Hparse).
  cbn [finalize DeviceBreakdown BrowserBreakdown OSBreakdown GeoBreakdown DomainBreakdown].
  subst entry. cbv beta.
  repeat apply conj.
  - apply (breakdown_lookup colMap DeviceBreakdown); [reflexivity|reflexivity|exact Hlen].
  - apply (breakdown_lookup colMap BrowserBreakdown); [reflexivity|reflexivity|exact Hlen].
  - apply (breakdown_lookup colMap OSBreakdown); [reflexivity|reflexivity|exact Hlen].
  - apply (breakdown_lookup colMap GeoBreakdown); [reflexivity|reflexivity|exact Hlen].
  - apply (breakdown_lookup colMap DomainBreakdown); [reflexivity|reflexivity|exact Hlen].
Qed.

Lemma breakdown_counts_witness :
  exists summary,
    ParseBeeswaxLog sampleInput = inr summary
    /\ DeviceBreakdown summary !! "mobile"
       = asCount (cellCount sampleColMap "PLATFORM_DEVICE_TYPE" "mobile"
                    [sampleRow1; sampleRow2])
    /\ DeviceBreakdown summary !! "" = None.
Proof.
  destruct (ParseBeeswaxLog sampleInput) as [err|summary] eqn:Hparse;
    [vm_compute in Hparse; discriminate|].
  exists summary. split; [reflexivity|].
  split.
  - apply (breakdown_counts sampleHeader [sampleRow1; sampleRow2] sampleColMap summary
             sampleColMap_resolved Hparse ltac:(cbn; lia) "mobile").
  - apply (breakdown_counts sampleHeader [sampleRow1; sampleRow2] sampleColMap summary
             sampleColMap_resolved Hparse ltac:(cbn; lia) "").
Defined.

(** X5. The hourly breakdown of a returned summary maps every hour key to
    the number of data rows that carry a bid time formatted to that key; rows
    without a bid time are in no bucket. *)
Theorem hourly_counts (header : list string) (rows : list (list string))
  colMap summary :
  resolveColumns requiredCols (indexHeader header 0 ∅) = inr colMap ->
  ParseBeeswaxLog (csv.Row header :: map csv.Row rows) = inr summary ->
  Z.of_nat (List.length rows) < 2^63 ->
  forall hourKey,
  HourlyBreakdown summary !! hourKey
  = asCount (countRows
               (fun r => timed colMap r
                         && String.eqb (time.FormatHour (bidTimeOf colMap r)) hourKey)
               rows).
Proof.
  intros Hres Hparse Hlen hourKey.
  rewrite (ParseBeeswaxLog_rows_inv header rows colMap summary Hres Hparse).
  cbn [finalize HourlyBreakdown].
  rewrite (counting_fold colMap HourlyBreakdown (timed colMap)
             (fun r => time.FormatHour (bidTimeOf colMap r))).
  2:{ intros r s. destruct (timed colMap r) eqn:Ht.
      - apply processRecord_timed, Ht.
      - rewrite processRecord_untimed by exact Ht. reflexivity. }
  cbn [initialSummary HourlyBreakdown]. rewrite lookup_empty. unfold bump, asCount.
  pose proof (countRows_range
                (fun r => timed colMap r
                          && String.eqb (time.FormatHour (bidTimeOf colMap r)) hourKey)
                rows) as Hc.
  destruct (Z.eqb _ 0); [reflexivity|]. cbn [default].
  rewrite wrap64_small by lia. reflexivity.
Qed.

Lemma hourly_counts_witness :
  exists summary,
    ParseBeeswaxLog sampleInput = inr summary
    /\ forall hourKey,
       HourlyBreakdown summary !! hourKey
       = asCount (countRows
                    (fun r => timed sampleColMap r
                              && String.eqb (time.FormatHour (bidTimeOf sampleColMap r))
                                   hourKey)
                    [sampleRow1; sampleRow2]).
Proof.
  destruct (ParseBeeswaxLog sampleInput) as [err|summary] eqn:Hparse;
    [vm_compute in Hparse; discriminate|].
  exists summary. split; [reflexivity|].
  exact (hourly_counts sampleHeader [sampleRow1; sampleRow2] sampleColMap summary
           sampleColMap_resolved Hparse ltac:(cbn; lia)).
Defined.

(** ** The time range in general *)

Lemma updateTimeRange_bounds (times : list time.Time) :
  forall lo0 hi0,
  let range := fold_left (fun r t => updateTimeRange t r) times (lo0, hi0) in
  (fst range = lo0 \/ In (fst range) times)
  /\ ~ earlier lo0 (fst range)
  /\ (forall t, In t times -> ~ earlier t (fst range))
  /\ (snd range = hi0 \/ In (snd range) times)
  /\ ~ earlier (snd range) hi0
  /\ (forall t, In t times -> ~ earlier (snd range) t).
Proof.
  induction times as [|t times IH]; intros lo0 hi0.
  - cbn. repeat apply conj; auto using earlier_irrefl; intros _ [].
  - pose (lo1 := if time.Before t lo0 then t else lo0).
    pose (hi1 := if time.Before hi0 t then t else hi0).
    assert (updateTimeRange t (lo0, hi0) = (lo1, hi1)) as Hupd.
    { unfold updateTimeRange. cbn [fst snd]. rewrite After_Before. reflexivity. }
    cbv zeta. cbn [fold_left]. rewrite Hupd. clear Hupd.
    specialize (IH lo1 hi1). cbv zeta in IH.
    destruct (fold_left _ times (lo1, hi1)) as [lo hi]. cbn [fst snd] in *.
    destruct IH as (Hlo & Hlo0 & Hlos & Hhi & Hhi0 & His).
    assert ((lo1 = t /\ earlier t lo0) \/ (lo1 = lo0 /\ ~ earlier t lo0)) as Hlo1.
    { subst lo1. destruct (time.Before t lo0) eqn:Hb.
      - left. split; [reflexivity|]. apply Before_true, Hb.
      - right. split; [reflexivity|]. apply Before_false, Hb. }
    assert ((hi1 = t /\ earlier hi0 t) \/ (hi1 = hi0 /\ ~ earlier hi0 t)) as Hhi1.
    { subst hi1. destruct (time.Before hi0 t) eqn:Hb.
      - left. split; [reflexivity|]. apply Before_true, Hb.
      - right. split; [reflexivity|]. apply Before_false, Hb. }
    clearbody lo1 hi1.
    repeat apply conj.
    + destruct Hlo as [->|Hin]; [|right; right; exact Hin].
      destruct Hlo1 as [[-> _]|[-> _]]; [right; left|left]; reflexivity.
    + destruct Hlo1 as [[-> H]|[-> H]]; unfold earlier in *; lia.
    + intros u [<-|Hu]; [|exact (Hlos u Hu)].
      destruct Hlo1 as [[-> H]|[-> H]]; unfold earlier in *; lia.
    + destruct Hhi as [->|Hin]; [|right; right; exact Hin].
      destruct Hhi1 as [[-> _]|[-> _]]; [right; left|left]; reflexivity.
    + destruct Hhi1 as [[-> H]|[-> H]]; unfold earlier in *; lia.
    + intros u [<-|Hu]; [|exact (His u Hu)].
      destruct Hhi1 as [[-> H]|[-> H]]; unfold earlier in *; lia.
Qed.

(** X6. The time range of a returned summary: its start is the far-future
    sentinel or the bid time of a row, is not later than the sentinel and not
    later than the bid time of any row that carries one; its end is the
    far-past sentinel or the bid time of a row, is not earlier than the
    sentinel and not earlier than the bid time of any row. With no row that
    carries a bid time the range is the inverted pair of sentinels. *)
Theorem time_range_encloses (header : list string) (rows : list (list string))
  colMap summary :
  resolveColumns requiredCols (indexHeader header 0 ∅) = inr colMap ->
  ParseBeeswaxLog (csv.Row header :: map csv.Row rows) = inr summary ->
  let start := fst (TimeRange summary) in
  let stop := snd (TimeRange summary) in
  let carried t := exists r, In r rows /\ bidTimeOf colMap r = t /\ timed colMap r = true in
  (start = farFuture \/ carried start)
  /\ ~ earlier farFuture start
  /\ (forall t, carried t -> ~ earlier t start)
  /\ (stop = farPast \/ carried stop)
  /\ ~ earlier stop farPast
  /\ (forall t, carried t -> ~ earlier stop t)
  /\ ((forall t, ~ carried t) -> TimeRange summary = (farFuture, farPast)).
Proof.
  intros Hres Hparse start stop carried.
  subst start stop.
  rewrite (ParseBeeswaxLog_rows_inv header rows colMap summary Hres Hparse).
  cbn [finalize TimeRange].
  rewrite aggregate_TimeRange. cbn [initialSummary TimeRange].
  pose proof (updateTimeRange_bounds (timedTimes colMap rows) farFuture farPast) as H.
  cbv zeta in H. destruct H as (Hlo & Hlo0 & Hlos & Hhi & Hhi0 & His).
  assert (forall t, In t (timedTimes colMap rows) <-> carried t) as Hcar
    by (intros t; apply timedTimes_bidTimeOf).
  repeat apply conj.
  - destruct Hlo as [Hlo|Hlo]; [left; exact Hlo|right; apply Hcar, Hlo].
  - exact Hlo0.
  - intros t Ht. apply Hlos, Hcar, Ht.
  - destruct Hhi as [Hhi|Hhi]; [left; exact Hhi|right; apply Hcar, Hhi].
  - exact Hhi0.
  - intros t Ht. apply His, Hcar, Ht.
  - intros Hnone. destruct (timedTimes colMap rows) as [|t ts] eqn:Hts; [reflexivity|].
    destruct (Hnone t). apply Hcar. left. reflexivity.
Qed.

Lemma time_range_encloses_witness :
  exists summary,
    ParseBeeswaxLog sampleInput = inr summary
    /\ ~ earlier farFuture (fst (TimeRange summary))
    /\ ~ earlier (snd (TimeRange summary)) farPast.
Proof.
  destruct (ParseBeeswaxLog sampleInput) as [err|summary] eqn:Hparse;
    [vm_compute in Hparse; discriminate|].
  exists summary. split; [reflexivity|].
  destruct (time_range_encloses sampleHeader [sampleRow1; sampleRow2] sampleColMap summary
              sampleColMap_resolved Hparse) as (_ & Hlo & _ & _ & Hhi & _).
  split; [exact Hlo|exact Hhi].
Defined.

(** ** Integer totals and campaign metrics *)

Definition clicksOf (colMap : gmap string Z) (record : list string) : Z :=
  fst (strconv.Atoi (getValueSafely colMap record "CLICKS")).

Definition conversionsOf (colMap : gmap string Z) (record : list string) : Z :=
  fst (strconv.Atoi (getValueSafely colMap record "CONVERSIONS")).

(** The rows of campaign [id], in file order. *)
Definition campaignRows (colMap : gmap string Z) (id : string)
  (rows : list (list string)) : list (list string) :=
  List.filter (fun r => String.eqb (getValueSafely colMap r "CAMPAIGN_ID") id) rows.

(** The update of a campaign's metrics by one of its rows. *)
Definition addRow (colMap : gmap string Z) (c : CampaignMetrics.t)
  (record : list string) : CampaignMetrics.t :=
  CampaignMetrics.mk
    (wrap64 (CampaignMetrics.Impressions c + 1))
    (wrap64 (CampaignMetrics.Clicks c + clicksOf colMap record))
    (wrap64 (CampaignMetrics.Conversions c + conversionsOf colMap record))
    (CampaignMetrics.Spend c + dollars (winCostOf colMap record))%float
    (CampaignMetrics.CTR c).

Lemma aggregate_campaign colMap (cid : string) (rows : list (list string)) :
  cid <> "" ->
  forall summary,
  CampaignPerformance (aggregate colMap rows summary) !! cid
  = match campaignRows colMap cid rows with
    | [] => CampaignPerformance summary !! cid
    | own =>
        Some (fold_left (addRow colMap) own
                (default CampaignMetrics.zero (CampaignPerformance summary !! cid)))
    end.
Proof.
  intros Hid. induction rows as [|r rows IH]; intros summary; [reflexivity|].
  rewrite aggregate_cons, IH. unfold campaignRows. cbn [List.filter].
  cbn [processRecord CampaignPerformance]. unfold updateCampaign.
  destruct (String.eqb_spec (getValueSafely colMap r "CAMPAIGN_ID") cid) as [Heq|Hne].
  - rewrite Heq. apply String.eqb_neq in Hid. rewrite Hid.
    rewrite lookup_insert_eq. cbn [fold_left default id].
    fold (clicksOf colMap r) (conversionsOf colMap r) (winCostOf colMap r).
    destruct (List.filter _ rows); reflexivity.
  - destruct (String.eqb _ ""); [reflexivity|].
    rewrite lookup_insert_ne by exact Hne. reflexivity.
Qed.

Lemma aggregate_campaign_empty_key colMap (rows : list (list string)) :
  forall summary,
  CampaignPerformance (aggregate colMap rows summary) !! ""
  = CampaignPerformance summary !! "".
Proof.
  induction rows as [|r rows IH]; intros summary; [reflexivity|].
  rewrite aggregate_cons, IH. cbn [processRecord CampaignPerformance].
  unfold updateCampaign.
  destruct (String.eqb_spec (getValueSafely colMap r "CAMPAIGN_ID") "") as [_|Hne];
    [reflexivity|].
  apply lookup_insert_ne, Hne.
Qed.

Lemma addRow_fold colMap (own : list (list string)) :
  forall c,
  wrap64 (CampaignMetrics.Impressions c) = CampaignMetrics.Impressions c ->
  wrap64 (CampaignMetrics.Clicks c) = CampaignMetrics.Clicks c ->
  wrap64 (CampaignMetrics.Conversions c) = CampaignMetrics.Conversions c ->
  let c' := fold_left (addRow colMap) own c in
  CampaignMetrics.Impressions c'
  = wrap64 (CampaignMetrics.Impressions c + Z.of_nat (List.length own))
  /\ CampaignMetrics.Clicks c'
     = wrap64 (CampaignMetrics.Clicks c + sumRows (clicksOf colMap) own)
  /\ CampaignMetrics.Conversions c'
     = wrap64 (CampaignMetrics.Conversions c + sumRows (conversionsOf colMap) own)
  /\ CampaignMetrics.Spend c'
     = fold_left (fun x r => (x + dollars (winCostOf colMap r))%float) own
         (CampaignMetrics.Spend c)
  /\ CampaignMetrics.CTR c' = CampaignMetrics.CTR c.
Proof.
  induction own as [|r own IH]; intros c Hi Hc Hv.
  - cbn. rewrite !Z.add_0_r. auto.
  - cbn [fold_left]. cbv zeta in IH |- *.
    destruct (IH (addRow colMap c r)) as (-> & -> & -> & -> & ->);
      try (cbn; apply wrap64_idem).
    cbn [addRow CampaignMetrics.Impressions CampaignMetrics.Clicks
         CampaignMetrics.Conversions CampaignMetrics.Spend CampaignMetrics.CTR].
    rewrite !wrap64_add_l. cbn [sumRows fold_right List.length fold_left].
    repeat apply conj; try reflexivity; f_equal; unfold sumRows; lia.
Qed.

(** X7. The campaign map of a returned summary has an entry for an
    identifier exactly when the identifier is not empty and some data row
    carries it. The entry's impressions are the number of those rows, its
    clicks and conversions the 64-bit sums of their CLICKS and CONVERSIONS
    cells, and its spend the float64 sum, from 0 in file order, of their win
    costs in dollars. *)
Theorem campaign_totals (header : list string) (rows : list (list string))
  colMap summary :
  resolveColumns requiredCols (indexHeader header 0 ∅) = inr colMap ->
  ParseBeeswaxLog (csv.Row header :: map csv.Row rows) = inr summary ->
  Z.of_nat (List.length rows) < 2^63 ->
  forall cid,
  let own := campaignRows colMap cid rows in
  if String.eqb cid "" || bool_decide (own = []) then
    CampaignPerformance summary !! cid = None
  else
    exists c,
      CampaignPerformance summary !! cid = Some c
      /\ CampaignMetrics.Impressions c = Z.of_nat (List.length own)
      /\ CampaignMetrics.Clicks c = wrap64 (sumRows (clicksOf colMap) own)
      /\ CampaignMetrics.Conversions c = wrap64 (sumRows (conversionsOf colMap) own)
      /\ CampaignMetrics.Spend c
         = fold_left (fun x r => (x + dollars (winCostOf colMap r))%float) own 0%float.
Proof.
  intros Hres Hparse Hlen cid own.
  rewrite (ParseBeeswaxLog_rows_inv header rows colMap summary Hres Hparse).
  cbn [finalize CampaignPerformance]. rewrite lookup_fmap.
  destruct (String.eqb_spec cid "") as [->|Hid]; cbn [orb].
  - rewrite aggregate_campaign_empty_key. reflexivity.
  - rewrite (aggregate_campaign colMap cid rows Hid). fold own.
    cbn [initialSummary CampaignPerformance]. rewrite lookup_empty.
    destruct (bool_decide_reflect (own = [])) as [->|Hown]; [reflexivity|].
    pose proof (addRow_fold colMap own CampaignMetrics.zero
                  ltac:(reflexivity) ltac:(reflexivity) ltac:(reflexivity)) as H.
    cbv zeta in H. destruct H as (Hi & Hc & Hv & Hs & _).
    assert (Z.of_nat (List.length own) <= Z.of_nat (List.length rows)) as Hle.
    { subst own. unfold campaignRows. pose proof (List.filter_length_le
        (fun r => String.eqb (getValueSafely colMap r "CAMPAIGN_ID") cid) rows). lia. }
    destruct own as [|r own']; [congruence|]. set (own := r :: own') in *.
    cbn [default id fmap option_fmap option_map].
    eexists. split; [reflexivity|]. unfold campaignCTR.
    rewrite Hi. cbn [CampaignMetrics.Impressions CampaignMetrics.zero] in *.
    rewrite Z.add_0_l, wrap64_small by lia.
    destruct (Z.ltb_spec 0 (Z.of_nat (List.length own))) as [_|Hz];
      [|subst own; cbn [List.length] in Hz; lia].
    cbn [CampaignMetrics.Impressions CampaignMetrics.Clicks
         CampaignMetrics.Conversions CampaignMetrics.Spend].
    rewrite Hc, Hv, Hs. cbn [CampaignMetrics.Clicks CampaignMetrics.Conversions
                              CampaignMetrics.Spend CampaignMetrics.zero].
    rewrite !Z.add_0_l. repeat apply conj; reflexivity.
Qed.

Lemma campaign_totals_witness :
  exists summary c,
    ParseBeeswaxLog sampleInput = inr summary
    /\ CampaignPerformance summary
       !! getValueSafely sampleColMap sampleRow1 "CAMPAIGN_ID" = Some c
    /\ CampaignMetrics.Impressions c
       = Z.of_nat (List.length
                     (campaignRows sampleColMap
                        (getValueSafely sampleColMap sampleRow1 "CAMPAIGN_ID")
                        [sampleRow1; sampleRow2])).
Proof.
  destruct (ParseBeeswaxLog sampleInput) as [err|summary] eqn:Hparse;
    [vm_compute in Hparse; discriminate|].
  pose proof (campaign_totals sampleHeader [sampleRow1; sampleRow2] sampleColMap summary
                sampleColMap_resolved Hparse ltac:(cbn; lia)
                (getValueSafely sampleColMap sampleRow1 "CAMPAIGN_ID")) as H.
  cbv zeta in H.
  change (String.eqb (getValueSafely sampleColMap sampleRow1 "CAMPAIGN_ID") ""
          || bool_decide
               (campaignRows sampleColMap
                  (getValueSafely sampleColMap sampleRow1 "CAMPAIGN_ID")
                  [sampleRow1; sampleRow2] = [])) with false in H.
  destruct H as (c & Hc & Hi & _).
  exists summary, c. split; [reflexivity|]. split; [exact Hc|exact Hi].
Defined.

Lemma aggregate_int_totals colMap (rows : list (list string)) :
  TotalRecords (aggregate colMap rows initialSummary)
  = wrap64 (sumRows (fun _ => 1) rows)
  /\ TotalImpressions (aggregate colMap rows initialSummary)
     = wrap64 (sumRows (fun _ => 1) rows)
  /\ TotalClicks (aggregate colMap rows initialSummary)
     = wrap64 (sumRows (clicksOf colMap) rows)
  /\ TotalConversions (aggregate colMap rows initialSummary)
     = wrap64 (sumRows (conversionsOf colMap) rows).
Proof.
  repeat apply conj.
  - apply (summing_fold colMap TotalRecords (fun _ => 1)); reflexivity.
  - apply (summing_fold colMap TotalImpressions (fun _ => 1)); reflexivity.
  - apply (summing_fold colMap TotalClicks (clicksOf colMap)); reflexivity.
  - apply (summing_fold colMap TotalConversions (conversionsOf colMap)); reflexivity.
Qed.

Lemma aggregate_TotalWinCost colMap (rows : list (list string)) :
  forall summary,
  TotalWinCost (aggregate colMap rows summary)
  = fold_left (fun x r => (x + dollars (winCostOf colMap r))%float) rows
      (TotalWinCost summary).
Proof.
  induction rows as [|r rows IH]; intros summary; [reflexivity|].
  rewrite aggregate_cons, IH. reflexivity.
Qed.

(** X8. The click and conversion totals of a returned summary are the
    64-bit sums of the values read from the CLICKS and CONVERSIONS cells of
    the data rows; the total win cost is the float64 sum, from 0 in file
    order, of the win costs in dollars; impressions equal records. *)
Theorem click_and_cost_totals (header : list string) (rows : list (list string))
  colMap summary :
  resolveColumns requiredCols (indexHeader header 0 ∅) = inr colMap ->
  ParseBeeswaxLog (csv.Row header :: map csv.Row rows) = inr summary ->
  TotalClicks summary = wrap64 (sumRows (clicksOf colMap) rows)
  /\ TotalConversions summary = wrap64 (sumRows (conversionsOf colMap) rows)
  /\ TotalWinCost summary
     = fold_left (fun x r => (x + dollars (winCostOf colMap r))%float) rows 0%float
  /\ TotalImpressions summary = TotalRecords summary.
Proof.
  intros Hres Hparse.
  rewrite (ParseBeeswaxLog_rows_inv header rows colMap summary Hres Hparse).
  cbn [finalize TotalClicks TotalConversions TotalWinCost TotalImpressions TotalRecords].
  destruct (aggregate_int_totals colMap rows) as (Hr & Hi & Hc & Hv).
  rewrite Hr, Hi, Hc, Hv, aggregate_TotalWinCost. repeat apply conj; reflexivity.
Qed.

Lemma click_and_cost_totals_witness :
  exists summary,
    ParseBeeswaxLog sampleInput = inr summary
    /\ TotalClicks summary
       = wrap64 (sumRows (clicksOf sampleColMap) [sampleRow1; sampleRow2]).
Proof.
  destruct (ParseBeeswaxLog sampleInput) as [err|summary] eqn:Hparse;
    [vm_compute in Hparse; discriminate|].
  exists summary. split; [reflexivity|].
  apply (click_and_cost_totals sampleHeader [sampleRow1; sampleRow2] sampleColMap summary
           sampleColMap_resolved Hparse).
Defined.

(** ** Independence of the order of the rows *)

Lemma firstFailure_rows (n : Z) (rows : list (list string)) :
  firstFailure n (map csv.Row rows) = None
  <-> Forall (fun r => Z.of_nat (List.length r) = n) rows.
Proof.
  induction rows as [|r rows IH]; cbn [map firstFailure].
  - split; [constructor|reflexivity].
  - destruct (Z.eqb_spec (Z.of_nat (List.length r)) n) as [Hlen|Hlen].
    + rewrite IH. split; [intros H; constructor; assumption|].
      intros H. apply Forall_cons in H as [_ H]. exact H.
    + split; [discriminate|]. intros H. apply Forall_cons in H as [H _]. contradiction.
Qed.

Lemma parsed_rows_width (header : list string) (rows : list (list string)) colMap summary :
  resolveColumns requiredCols (indexHeader header 0 ∅) = inr colMap ->
  ParseBeeswaxLog (csv.Row header :: map csv.Row rows) = inr summary ->
  header <> [] /\ Forall (fun r => List.length r = List.length header) rows.
Proof.
  intros Hres Hparse.
  pose proof (resolved_validHeader _ _ Hres) as [Hv _].
  apply validHeader_nonempty in Hv. split; [exact Hv|].
  rewrite ParseBeeswaxLog_header, Hres, recordLoop_outcome in Hparse
    by (destruct header; [congruence|cbn; lia]).
  destruct (firstFailure _ (map csv.Row rows)) eqn:Hf; [discriminate|].
  apply firstFailure_rows in Hf.
  eapply Forall_impl; [exact Hf|]. cbn. intros r Hr. lia.
Qed.





(** ** Repeated column names *)

Lemma indexHeader_notin (hs : list string) :
  forall (i : Z) (m : gmap string Z) k,
  ~ In k hs -> indexHeader hs i m !! k = m !! k.
Proof.
  induction hs as [|h hs IH]; intros i m k Hk; [reflexivity|].
  cbn [indexHeader]. rewrite IH by (intros H; apply Hk; right; exact H).
  apply lookup_insert_ne. intros ->. apply Hk. left. reflexivity.
Qed.

Lemma indexHeader_app (pre post : list string) :
  forall (i : Z) (m : gmap string Z),
  indexHeader (pre ++ post) i m
  = indexHeader post (i + Z.of_nat (List.length pre)) (indexHeader pre i m).
Proof.
  induction pre as [|h pre IH]; intros i m.
  - cbn. rewrite Z.add_0_r. reflexivity.
  - cbn [app indexHeader List.length]. rewrite IH. f_equal. lia.
Qed.

(** X10. When a column name occurs several times in the header, the cells
    of that column are read from its rightmost occurrence; this holds for a
    required name spelled exactly, whatever other spellings of it the header
    holds and wherever they stand. *)
Theorem repeated_column_reads_rightmost (pre post : list string) (col : string)
  colMap :
  resolveColumns requiredCols (indexHeader (pre ++ col :: post) 0 ∅) = inr colMap ->
  ~ In col post ->
  colMap !! col = Some (Z.of_nat (List.length pre))
  /\ forall record,
       List.length record = List.length (pre ++ col :: post) ->
       getValueSafely colMap record col = nth (List.length pre) record "".
Proof.
  intros Hres Hpost.
  assert (colMap !! col = Some (Z.of_nat (List.length pre))) as Hcol.
  { pose proof (resolveColumns_spec (pre ++ col :: post) requiredCols _
                  (covers_indexHeader _) requiredCols_upper) as Hspec.
    revert Hspec.
    destruct (List.filter _ requiredCols); intros Hspec; [|congruence].
    destruct Hspec as (colMap' & Hres' & _ & _ & Hkeep).
    rewrite Hres in Hres'. injection Hres' as <-.
    assert (indexHeader (pre ++ col :: post) 0 ∅ !! col
            = Some (Z.of_nat (List.length pre))) as Hidx.
    { rewrite indexHeader_app. cbn [indexHeader].
      rewrite indexHeader_notin by exact Hpost.
      rewrite lookup_insert_eq. reflexivity. }
    rewrite Hkeep by (rewrite Hidx; eauto). exact Hidx. }
  split; [exact Hcol|].
  intros record Hlen. unfold getValueSafely. rewrite Hcol.
  rewrite length_app in Hlen. cbn [List.length] in Hlen.
  destruct (Z.leb_spec (Z.of_nat (List.length record)) (Z.of_nat (List.length pre)));
    [lia|].
  rewrite Nat2Z.id. reflexivity.
Qed.

Definition clicksTwice : list string :=
  ["clicks"; "CLICKS"] ++ "CLICKS" :: List.skipn 7 requiredCols
  ++ List.firstn 6 requiredCols.

Lemma repeated_column_reads_rightmost_witness :
  resolveColumns requiredCols (indexHeader clicksTwice 0 ∅)
  = inr (indexHeader clicksTwice 0 ∅)
  /\ indexHeader clicksTwice 0 ∅ !! "CLICKS" = Some 2.
Proof.
  assert (resolveColumns requiredCols (indexHeader clicksTwice 0 ∅)
          = inr (indexHeader clicksTwice 0 ∅)) as Hres.
  { apply resolveColumns_exact.
    repeat (constructor; [eexists; vm_compute; reflexivity|]). constructor. }
  split; [exact Hres|].
  apply (repeated_column_reads_rightmost ["clicks"; "CLICKS"]
           (List.skipn 7 requiredCols ++ List.firstn 6 requiredCols) "CLICKS" _ Hres).
  vm_compute. intuition discriminate.
Defined.

(** * Strings and paths *)

Lemma substring_all (s : string) : String.substring 0 (String.length s) s = s.
Proof. induction s as [|c s IH]; cbn; [reflexivity|]. rewrite IH. reflexivity. Qed.

Lemma prefix_drop (p s : string) :
  String.prefix p s = true -> s = p ++ time.drop (String.length p) s.
Proof.
  revert s. induction p as [|c p IH]; intros s H.
  - unfold time.drop. cbn [String.length String.append]. rewrite Nat.sub_0_r.
    symmetry. apply substring_all.
  - destruct s as [|c' s]; [discriminate|]. cbn [String.prefix] in H.
    destruct (ascii_dec c c') as [<-|_]; [|discriminate].
    cbn [String.append]. f_equal. rewrite (IH s H) at 1. reflexivity.
Qed.

Lemma prefix_app (p s : string) : String.prefix p (p ++ s) = true.
Proof.
  induction p as [|c p IH]; [destruct s; reflexivity|].
  change (String c p ++ s) with (String c (p ++ s)). cbn [String.prefix].
  destruct (ascii_dec c c); [exact IH|congruence].
Qed.

Lemma string_app_assoc (a b c : string) : (a ++ b) ++ c = a ++ (b ++ c).
Proof.
  induction a as [|x a IH]; [reflexivity|].
  change (String x ((a ++ b) ++ c) = String x (a ++ (b ++ c))).
  rewrite IH. reflexivity.
Qed.

Lemma string_app_length (a b : string) :
  String.length (a ++ b) = (String.length a + String.length b)%nat.
Proof.
  induction a as [|x a IH]; [reflexivity|].
  change (S (String.length (a ++ b)) = S (String.length a + String.length b)).
  rewrite IH. reflexivity.
Qed.

Lemma take_drop (s : string) :
  forall i : nat, (i <= String.length s)%nat ->
  String.substring 0 i s ++ time.drop i s = s.
Proof.
  unfold time.drop. induction s as [|c s IH]; intros i Hi.
  - destruct i; [reflexivity|cbn in Hi; lia].
  - destruct i as [|i].
    + cbn [String.substring String.length Nat.sub].
      change (String c (String.substring 0 (String.length s) s) = String c s).
      rewrite substring_all. reflexivity.
    + cbn [String.substring String.length Nat.sub].
      change (String c (String.substring 0 i s
                        ++ String.substring i (String.length s - i) s) = String c s).
      rewrite IH by (cbn [String.length] in Hi; lia). reflexivity.
Qed.

Lemma get_lt (s : string) :
  forall (i : nat) c, String.get i s = Some c -> (i < String.length s)%nat.
Proof.
  induction s as [|c' s IH]; intros i c H; [discriminate|].
  destruct i as [|i]; cbn [String.length]; [lia|].
  cbn [String.get] in H. apply IH in H. lia.
Qed.

(** [filepath.Ext] returns the empty string or a suffix of the path that
    starts at a dot. *)
Lemma Ext_suffix (path : string) :
  filepath.Ext path = ""
  \/ exists stem, path = stem ++ filepath.Ext path.
Proof.
  unfold filepath.Ext. generalize (String.length path) as n.
  induction n as [|n IH]; [left; reflexivity|].
  cbn [filepath.extLoop].
  destruct (String.get n path) as [c|] eqn:Hget; [|left; reflexivity].
  destruct (Ascii.eqb c "/"); [left; reflexivity|].
  destruct (Ascii.eqb c "."); [|exact IH].
  right. exists (String.substring 0 n path). symmetry. apply take_drop.
  apply get_lt in Hget. lia.
Qed.

(** * Processing a log file *)

Section Service.

Context `{L : processor.Lib (option BeeswaxLogSummary)} `{R : logprocessor.Runtime}.

Import processor.




Lemma ProcessLogFile_success (s : LogProcessorService)
  (disk disk' : gmap string string) (now : time.Time)
  (filePath fileID fileName userID : string)
  (result : LogAnalysisResult (option BeeswaxLogSummary)) :
  logprocessor.ProcessLogFile s disk now filePath fileID fileName userID
  = ((result, None), disk') ->
  exists file summary data,
    disk !! filePath = Some file
    /\ filepath.Ext fileName = ".csv"
    /\ ParseBeeswaxLog (logprocessor.records file) = inr summary
    /\ result = mkResult fileID userID fileName now (Some summary) "completed" ""
    /\ MarshalIndent result = Some data
    /\ disk' = <[Join [Join [basePath s; "reports"; userID]; analysisFile fileID]
                 := data]> disk.
Proof.
  unfold logprocessor.ProcessLogFile.
  destruct (disk !! filePath) as [file|] eqn:Hfile; [|discriminate].
  destruct (String.eqb_spec (filepath.Ext fileName) ".csv") as [Hext|Hext]; cbn [negb];
    [|discriminate].
  destruct (ParseBeeswaxLog (logprocessor.records file)) as [e|summary] eqn:Hparse;
    [discriminate|].
  unfold storeAnalysisResult.
  destruct (MarshalIndent _) as [data|] eqn:Hdata; intros [= <- <-].
  exists file, summary, data. auto 10.
Qed.

(** X12. A processing that returns no error found the file, a name with
    the extension .csv and a log that parses; its result has status
    "completed" and the summary of the parse, and is what the disk now holds
    for the file: the processed-or-not query answers true, and the load
    returns this very result whenever the decoder inverts the encoder on
    it. No other file changed. *)
Theorem processed_result_is_stored (s : LogProcessorService)
  (disk disk' : gmap string string) (now : time.Time)
  (filePath fileID fileName userID : string)
  (result : LogAnalysisResult (option BeeswaxLogSummary)) :
  Join [Join [basePath s; "reports"; userID]; analysisFile fileID]
  = Join [basePath s; "reports"; userID; analysisFile fileID] ->
  logprocessor.ProcessLogFile s disk now filePath fileID fileName userID
  = ((result, None), disk') ->
  Status result = "completed"
  /\ filepath.Ext fileName = ".csv"
  /\ (exists file summary,
        disk !! filePath = Some file
        /\ ParseBeeswaxLog (logprocessor.records file) = inr summary
        /\ Summary result = Some summary)
  /\ (exists data,
        MarshalIndent result = Some data
        /\ disk' = <[resultsPathOf s userID fileID := data]> disk
        /\ (Unmarshal data = Some result ->
            GetAnalysisResult s disk' fileID userID = inr result))
  /\ IsLogFileProcessed s disk' fileID userID = (true, None).
Proof.
  intros Hjoin Hrun.
  apply ProcessLogFile_success in Hrun
      as (file & summary & data & Hfile & Hext & Hparse & Hresult & Hdata & Hdisk).
  rewrite Hjoin in Hdisk. fold (resultsPathOf s userID fileID) in Hdisk.
  assert (disk' !! resultsPathOf s userID fileID = Some data) as Hlook
    by (rewrite Hdisk; apply lookup_insert_eq).
  split; [rewrite Hresult; reflexivity|]. split; [exact Hext|]. split.
  { exists file, summary. rewrite Hresult. auto. }
  split.
  - exists data. split; [exact Hdata|]. split; [exact Hdisk|].
    intros Hround. rewrite (GetAnalysisResult_read s disk' fileID userID data Hlook).
    rewrite Hround. reflexivity.
  - rewrite IsLogFileProcessed_exists, Hlook.
    rewrite bool_decide_eq_true_2 by eauto. reflexivity.
Qed.

(** ** The file service *)

(** X13. When a result file exists for the (user, file) key, the service
    answers from it alone: the decoded result, or the decoding error. It
    does not look for the uploaded file, does not read the clock and writes
    nothing; so a result file that does not decode makes every call fail the
    same way, and the log is never processed again. *)
Theorem stored_result_short_circuits (s : services.FileService)
  (dirs : gmap string (list storage.DirEntry)) (disk : gmap string string)
  (now : time.Time) (fileID userID data : string) :
  disk !! resultsPathOf (services.logProcessor s) userID fileID = Some data ->
  services.ProcessLogFile s dirs disk now fileID userID
  = (match Unmarshal data with
     | Some result => inr result
     | None => inl (services.FailedToGetResult FailedToParse)
     end, disk).
Proof.
  intros Hdata. unfold services.ProcessLogFile, services.GetLogAnalysisResult.
  rewrite IsLogFileProcessed_exists, Hdata, bool_decide_eq_true_2 by eauto.
  rewrite (GetAnalysisResult_read _ disk fileID userID data Hdata).
  destruct (Unmarshal data); reflexivity.
Qed.

Lemma services_ProcessLogFile_fresh (s : services.FileService)
  (dirs : gmap string (list storage.DirEntry)) (disk : gmap string string)
  (now : time.Time) (fileID userID : string) :
  disk !! resultsPathOf (services.logProcessor s) userID fileID = None ->
  services.ProcessLogFile s dirs disk now fileID userID
  = match storage.GetFile (services.fileStorage s) dirs disk fileID userID with
    | inl err => (inl (services.FailedToGetFile err), disk)
    | inr (_, fileInfo) =>
        match logprocessor.ProcessLogFile (services.logProcessor s) disk now
                (storage.FilePath fileInfo) fileID (storage.FileName fileInfo)
                userID with
        | ((_, Some err), disk) => (inl (services.FailedToProcess err), disk)
        | ((result, None), disk) => (inr result, disk)
        end
    end.
Proof.
  intros Hnone. unfold services.ProcessLogFile.
  rewrite IsLogFileProcessed_exists, Hnone.
  rewrite bool_decide_eq_false_2 by (intros [? [=]]). reflexivity.
Qed.



(** X16. The service processes a file only under a stored name that ends
    in .csv: when it returns a result for a file that had no result yet, the
    storage found the file, guessed the type text/csv from its name, and the
    result carries that name. *)
Theorem only_csv_names_are_processed (s : services.FileService)
  (dirs : gmap string (list storage.DirEntry)) (disk disk1 : gmap string string)
  (now : time.Time) (fileID userID : string)
  (result : LogAnalysisResult (option BeeswaxLogSummary)) :
  disk !! resultsPathOf (services.logProcessor s) userID fileID = None ->
  services.ProcessLogFile s dirs disk now fileID userID = (inr result, disk1) ->
  exists file info,
    storage.GetFile (services.fileStorage s) dirs disk fileID userID = inr (file, info)
    /\ filepath.Ext (storage.FileName info) = ".csv"
    /\ (exists stem, storage.FileName info = stem ++ ".csv")
    /\ storage.getFileTypeFromName (storage.FileName info) = "text/csv"
    /\ FileName result = storage.FileName info
    /\ ProcessedAt result = now
    /\ Status result = "completed".
Proof.
  intros Hnone Hrun. rewrite services_ProcessLogFile_fresh in Hrun by exact Hnone.
  destruct (storage.GetFile _ dirs disk fileID userID) as [e|[file info]];
    [discriminate|].
  destruct (logprocessor.ProcessLogFile _ disk now _ fileID _ userID)
    as [[r [e|]] d] eqn:Hproc; [discriminate|].
  injection Hrun as <- <-.
  apply ProcessLogFile_success in Hproc
      as (file' & summary & data & _ & Hext & _ & -> & _ & _).
  exists file, info. split; [reflexivity|]. split; [exact Hext|].
  split.
  { destruct (Ext_suffix (storage.FileName info)) as [Hempty|[stem Hstem]].
    - rewrite Hext in Hempty. discriminate Hempty.
    - exists stem. rewrite Hext in Hstem. exact Hstem. }
  split; [|auto]. unfold storage.getFileTypeFromName. rewrite Hext. reflexivity.
Qed.

End Service.

(** * Finding a stored file *)

Section Storage.

Context {Any : Type} `{L : processor.Lib Any}.

Import processor storage.

(** An entry [findFileByID] accepts for [id]. *)
Definition matchesID (id : string) (entry : DirEntry) : bool :=
  negb (IsDir entry) && String.prefix (id ++ "_") (Name entry).

(** The metadata built from an accepted entry. *)
Definition infoOf (id userID dirPath : string) (entry : DirEntry) : FileInfo :=
  let originalName := time.drop (String.length id + 1) (Name entry) in
  mkFileInfo id originalName (Size entry) (getFileTypeFromName originalName)
    (ModTime entry) userID (Join [dirPath; Name entry]).

Lemma findInEntries_find (id userID dirPath : string) (entries : list DirEntry) :
  findInEntries id userID dirPath entries
  = infoOf id userID dirPath <$> List.find (matchesID id) entries.
Proof.
  induction entries as [|entry entries IH]; [reflexivity|].
  cbn [findInEntries List.find]. unfold matchesID at 1.
  destruct (IsDir entry); cbn [negb andb]; [exact IH|].
  destruct (String.prefix _ _); [reflexivity|exact IH].
Qed.

Lemma matchesID_name (id : string) (entry : DirEntry) :
  matchesID id entry = true ->
  IsDir entry = false
  /\ Name entry = id ++ "_" ++ time.drop (String.length id + 1) (Name entry).
Proof.
  unfold matchesID. intros H. apply andb_true_iff in H as [Hdir Hpre].
  apply negb_true_iff in Hdir. split; [exact Hdir|].
  apply prefix_drop in Hpre. rewrite string_app_length in Hpre. cbn [String.length] in Hpre.
  rewrite string_app_assoc in Hpre. exact Hpre.
Qed.

Lemma findInDirs_inr (fs : FileStorage) (dirs : gmap string (list DirEntry))
  (id userID : string) (subDirs : list string) info :
  findInDirs fs dirs id userID subDirs = inr info ->
  exists subDir entries entry,
    In subDir subDirs
    /\ dirs !! Join [basePath fs; subDir; userID] = Some entries
    /\ List.find (matchesID id) entries = Some entry
    /\ info = infoOf id userID (Join [basePath fs; subDir; userID]) entry.
Proof.
  induction subDirs as [|subDir subDirs IH]; [discriminate|].
  cbn [findInDirs].
  destruct (dirs !! Join [basePath fs; subDir; userID]) as [entries|] eqn:Hdir.
  - rewrite findInEntries_find.
    destruct (List.find (matchesID id) entries) as [entry|] eqn:Hfind; cbn.
    + intros [= <-]. exists subDir, entries, entry. cbn. auto.
    + intros H. destruct (IH H) as (sd & es & e & Hin & ?).
      exists sd, es, e. split; [right; exact Hin|assumption].
  - intros H. destruct (IH H) as (sd & es & e & Hin & ?).
    exists sd, es, e. split; [right; exact Hin|assumption].
Qed.

Lemma findInDirs_inl (fs : FileStorage) (dirs : gmap string (list DirEntry))
  (id userID : string) (subDirs : list string) err :
  findInDirs fs dirs id userID subDirs = inl err <->
  err = FileNotFound
  /\ forall subDir entries entry,
       In subDir subDirs ->
       dirs !! Join [basePath fs; subDir; userID] = Some entries ->
       In entry entries -> matchesID id entry = false.
Proof.
  induction subDirs as [|subDir subDirs IH]; cbn [findInDirs].
  - split.
    + intros [= <-]. split; [reflexivity|]. intros ? ? ? [].
    + intros [-> _]. reflexivity.
  - destruct (dirs !! Join [basePath fs; subDir; userID]) as [entries|] eqn:Hdir.
    + rewrite findInEntries_find.
      destruct (List.find (matchesID id) entries) as [entry|] eqn:Hfind; cbn.
      * split; [discriminate|]. intros [_ Hnone].
        apply find_some in Hfind as [Hin Hm].
        rewrite (Hnone subDir entries entry (or_introl eq_refl) Hdir Hin) in Hm.
        discriminate Hm.
      * rewrite IH. split; intros [-> Hnone]; (split; [reflexivity|]).
        -- intros sd es e [<-|Hin] Hes He.
           ++ rewrite Hdir in Hes. injection Hes as <-.
              exact (find_none _ _ Hfind e He).
           ++ exact (Hnone sd es e Hin Hes He).
        -- intros sd es e Hin. apply Hnone. right. exact Hin.
    + rewrite IH. split; intros [-> Hnone]; (split; [reflexivity|]).
      * intros sd es e [<-|Hin] Hes He.
        -- rewrite Hdir in Hes. discriminate Hes.
        -- exact (Hnone sd es e Hin Hes He).
      * intros sd es e Hin. apply Hnone. right. exact Hin.
Qed.

(** X17. A file that is found is the first entry, in one of the user's
    three directories, that is no directory and whose name is the id, an
    underscore and the file name reported; the size and the upload time
    reported are those of the entry, the type is guessed from the file name,
    and the path is the entry's. *)
Theorem found_file_is_a_listed_entry (fs : FileStorage)
  (dirs : gmap string (list DirEntry)) (id userID : string) (info : FileInfo) :
  findFileByID fs dirs id userID = inr info ->
  exists subDir entries entry,
    In subDir ["dsp_logs"; "reports"; "temp"]
    /\ dirs !! Join [basePath fs; subDir; userID] = Some entries
    /\ List.find (matchesID id) entries = Some entry
    /\ In entry entries
    /\ IsDir entry = false
    /\ Name entry = id ++ "_" ++ FileName info
    /\ ID info = id
    /\ UserID info = userID
    /\ FileSize info = Size entry
    /\ UploadedAt info = ModTime entry
    /\ FileType info = getFileTypeFromName (FileName info)
    /\ FilePath info = Join [Join [basePath fs; subDir; userID]; Name entry].
Proof.
  intros H. apply findInDirs_inr in H as (subDir & entries & entry & Hin & Hdir & Hfind & ->).
  exists subDir, entries, entry.
  pose proof (find_some _ _ Hfind) as [Hentry Hm].
  apply matchesID_name in Hm as [Hisdir Hname].
  cbn [infoOf ID FileName FileSize FileType UploadedAt UserID FilePath].
  repeat (split; [assumption || reflexivity|]). reflexivity.
Qed.

(** X18. The search fails exactly when no entry of the user's three
    directories that is no directory has a name starting with the id and an
    underscore; directories that are missing count as empty, and the failure
    is always "file not found". *)
Theorem file_not_found_iff (fs : FileStorage)
  (dirs : gmap string (list DirEntry)) (id userID : string) (err : Error) :
  findFileByID fs dirs id userID = inl err <->
  err = FileNotFound
  /\ forall subDir entries entry,
       In subDir ["dsp_logs"; "reports"; "temp"] ->
       dirs !! Join [basePath fs; subDir; userID] = Some entries ->
       In entry entries ->
       IsDir entry = true \/ String.prefix (id ++ "_") (Name entry) = false.
Proof.
  unfold findFileByID. rewrite findInDirs_inl.
  split; intros [-> Hnone]; (split; [reflexivity|]); intros sd es e Hin Hes He;
    specialize (Hnone sd es e Hin Hes He); unfold matchesID in *.
  - destruct (IsDir e); [left; reflexivity|right; exact Hnone].
  - destruct Hnone as [->| ->]; [reflexivity|apply andb_false_r].
Qed.

(** X19. The id is matched as a prefix of the entry's name up to an
    underscore, not as the whole id: when the file found for an id has a
    name with an underscore in it, a file is also found for the longer id
    that runs up to that underscore. *)
Theorem longer_id_finds_a_file (fs : FileStorage)
  (dirs : gmap string (list DirEntry)) (id userID a b : string) (info : FileInfo) :
  findFileByID fs dirs id userID = inr info ->
  FileName info = a ++ "_" ++ b ->
  exists info', findFileByID fs dirs (id ++ "_" ++ a) userID = inr info'.
Proof.
  intros Hfound Hname.
  destruct (findFileByID fs dirs (id ++ "_" ++ a) userID) as [err|info'] eqn:Hlong;
    [|eauto].
  exfalso. unfold findFileByID in *.
  apply findInDirs_inr in Hfound as (subDir & entries & entry & Hin & Hdir & Hfind & ->).
  apply findInDirs_inl in Hlong as [_ Hnone].
  apply find_some in Hfind as [Hentry Hm].
  specialize (Hnone subDir entries entry Hin Hdir Hentry).
  apply matchesID_name in Hm as [Hisdir Hentryname].
  cbn [infoOf FileName] in Hname. rewrite Hname in Hentryname.
  unfold matchesID in Hnone. rewrite Hisdir in Hnone. cbn [negb andb] in Hnone.
  rewrite Hentryname in Hnone.
  replace (id ++ "_" ++ a ++ "_" ++ b) with (((id ++ "_" ++ a) ++ "_") ++ b) in Hnone
    by (rewrite !string_app_assoc; reflexivity).
  rewrite prefix_app in Hnone. discriminate Hnone.
Qed.

End Storage.

(** X20. An upload whose Content-Type the file service accepts is stored
    among the logs, whatever its name, unless the type is application/json;
    a JSON upload is stored by the extension of its name, and the storage
    keeps an upload among the reports only for a JSON upload named .pdf,
    .doc or .docx. *)
Theorem accepted_uploads_are_stored_as_logs (contentType fileName : string) :
  services.validateFileType contentType = None ->
  (contentType <> "application/json" ->
   storage.subDirFor contentType fileName = "dsp_logs")
  /\ (storage.subDirFor contentType fileName = "reports" ->
      contentType = "application/json"
      /\ In (filepath.Ext fileName) [".pdf"; ".docx"; ".doc"]).
Proof.
  unfold services.validateFileType, services.allowedTypes. cbn [existsb].
  intros Hok.
  assert (In contentType services.allowedTypes) as Hin.
  { unfold services.allowedTypes.
    repeat match type of Hok with
    | context [String.eqb ?x ?y] =>
        destruct (String.eqb_spec x y) as [->|?]; cbn [orb] in Hok
    end; cbn; auto 10; discriminate. }
  unfold storage.subDirFor, storage.isLogFile, storage.isReportFile.
  destruct Hin as [<-|[<-|[<-|[<-|[<-|[]]]]]]; cbn [String.eqb Ascii.eqb Bool.eqb orb];
    try (split; [reflexivity|discriminate]).
  split; [congruence|].
  repeat match goal with
  | |- context [String.eqb ?x ?y] =>
      destruct (String.eqb_spec x y) as [->|?]; cbn [orb]
  end; intros; try discriminate; cbn; auto 10.
Qed.

(** ** A small runtime to run the service on *)

(** A reader for files without quotes: one record per non-empty line, its
    fields separated by commas. *)
Fixpoint splitOn (sep : ascii) (s : string) : list string :=
  match s with
  | EmptyString => [EmptyString]
  | String c rest =>
      if Ascii.eqb c sep then EmptyString :: splitOn sep rest
      else
        match splitOn sep rest with
        | [] => [String c EmptyString]
        | field :: fields => String c field :: fields
        end
  end.

Definition newline : ascii := "010"%char.

Definition plainRecords (file : string) : list csv.Item :=
  map (fun line => csv.Row (splitOn "," line))
    (List.filter (fun line => negb (String.eqb line EmptyString)) (splitOn newline file)).

(** The bytes of the sample log. *)
Definition sampleFile : string :=
  String.concat (String newline EmptyString)
    (map (String.concat ",") [sampleHeader; sampleRow1; sampleRow2]).

Definition sampleNow : time.Time := time.Date 2024 7 1 12 0 0 0.

#[local] Instance sampleRuntime : logprocessor.Runtime := {|
  logprocessor.records := plainRecords;
  logprocessor.openErrorText :=
    fun path => "open " ++ path ++ ": no such file or directory";
  logprocessor.csvErrorText :=
    fun e =>
      match e with
      | csv.EOF => "EOF"
      | csv.ErrFieldCount => "wrong number of fields"
      | csv.ErrRead msg => msg
      end |}.

(** The result a processing of the sample log stores. *)
Definition storedSample : processor.LogAnalysisResult (option BeeswaxLogSummary) :=
  processor.mkResult "f1" "u1" "log.csv" sampleNow
    (match ParseBeeswaxLog (plainRecords sampleFile) with
     | inr summary => Some summary
     | inl _ => None
     end)
    "completed" "".

(** Paths joined with slashes, and a codec that knows the one stored
    result. *)
#[local] Instance sampleServiceLib : processor.Lib (option BeeswaxLogSummary) := {|
  processor.Join := String.concat "/";
  processor.MarshalIndent := fun r => Some (processor.FileID r ++ ".json");
  processor.Unmarshal := fun _ => Some storedSample |}.

Definition sampleService : services.FileService :=
  services.mkFileService (storage.mkStorage "uploads")
    (logprocessor.NewLogProcessorService "").

(** One user with one uploaded log. *)
Definition sampleDirs : gmap string (list storage.DirEntry) :=
  {[ "uploads/dsp_logs/u1" :=
       [storage.mkEntry "archive" true 4096 sampleNow;
        storage.mkEntry "f1_log.csv" false 400 sampleNow;
        storage.mkEntry "f2_my_log.csv" false 400 sampleNow] ]}.

Definition sampleDisk : gmap string string :=
  {[ "uploads/dsp_logs/u1/f1_log.csv" := sampleFile ]}.


Lemma processed_result_is_stored_witness :
  exists result disk',
    logprocessor.ProcessLogFile (processor.mkService "uploads") sampleDisk sampleNow
      "uploads/dsp_logs/u1/f1_log.csv" "f1" "log.csv" "u1"
    = ((result, None), disk')
    /\ processor.Status result = "completed"
    /\ processor.IsLogFileProcessed (processor.mkService "uploads") disk' "f1" "u1"
       = (true, None).
Proof.
  assert (snd (fst (logprocessor.ProcessLogFile (processor.mkService "uploads")
                      sampleDisk sampleNow "uploads/dsp_logs/u1/f1_log.csv" "f1"
                      "log.csv" "u1")) = None) as Herr by (vm_compute; reflexivity).
  destruct (logprocessor.ProcessLogFile (processor.mkService "uploads") sampleDisk
              sampleNow "uploads/dsp_logs/u1/f1_log.csv" "f1" "log.csv" "u1")
    as [[result err] disk'] eqn:Hrun.
  cbn [fst snd] in Herr. subst err.
  exists result, disk'. split; [reflexivity|].
  destruct (@processed_result_is_stored sampleServiceLib sampleRuntime (processor.mkService "uploads") sampleDisk disk'
              sampleNow "uploads/dsp_logs/u1/f1_log.csv" "f1" "log.csv" "u1" result
              eq_refl Hrun) as (Hstatus & _ & _ & _ & Hprocessed).
  split; [exact Hstatus|exact Hprocessed].
Defined.

Lemma stored_result_short_circuits_witness :
  let disk : gmap string string := {[ "uploads/reports/u1/f1_analysis.json" := "{}" ]} in
  services.ProcessLogFile sampleService ∅ disk sampleNow "f1" "u1"
  = (inr storedSample, disk).
Proof.
  cbv zeta.
  exact (@stored_result_short_circuits sampleServiceLib sampleRuntime sampleService ∅
           {[ "uploads/reports/u1/f1_analysis.json" := "{}" ]} sampleNow "f1" "u1" "{}"
           eq_refl).
Defined.


Lemma only_csv_names_are_processed_witness :
  exists result disk1 file info,
    services.ProcessLogFile sampleService sampleDirs sampleDisk sampleNow "f1" "u1"
    = (inr result, disk1)
    /\ storage.GetFile (services.fileStorage sampleService) sampleDirs sampleDisk
         "f1" "u1" = inr (file, info)
    /\ storage.getFileTypeFromName (storage.FileName info) = "text/csv".
Proof.
  assert (match fst (services.ProcessLogFile sampleService sampleDirs sampleDisk
                       sampleNow "f1" "u1") with
          | inr _ => true
          | inl _ => false
          end = true) as Hok by (vm_compute; reflexivity).
  destruct (services.ProcessLogFile sampleService sampleDirs sampleDisk sampleNow
              "f1" "u1") as [[err|result] disk1] eqn:Hrun;
    [discriminate Hok|clear Hok].
  destruct (@only_csv_names_are_processed sampleServiceLib sampleRuntime sampleService sampleDirs sampleDisk disk1
              sampleNow "f1" "u1" result eq_refl Hrun)
    as (file & info & Hget & _ & _ & Htype & _).
  exists result, disk1, file, info. split; [reflexivity|]. split; [exact Hget|exact Htype].
Defined.

Lemma found_file_is_a_listed_entry_witness :
  exists info,
    storage.findFileByID (storage.mkStorage "uploads") sampleDirs "f1" "u1" = inr info
    /\ storage.FilePath info = "uploads/dsp_logs/u1/f1_log.csv"
    /\ storage.FileName info = "log.csv"
    /\ storage.FileType info = "text/csv".
Proof.
  exists (storage.mkFileInfo "f1" "log.csv" 400 "text/csv" sampleNow "u1"
            "uploads/dsp_logs/u1/f1_log.csv").
  split; [reflexivity|].
  destruct (@found_file_is_a_listed_entry string sampleLib (storage.mkStorage "uploads") sampleDirs
              "f1" "u1" _ eq_refl) as (subDir & entries & entry & _).
  repeat split.
Defined.

Lemma longer_id_finds_a_file_witness :
  exists info',
    storage.findFileByID (storage.mkStorage "uploads") sampleDirs "f2_my" "u1"
    = inr info'.
Proof.
  exact (@longer_id_finds_a_file string sampleLib (storage.mkStorage "uploads") sampleDirs "f2" "u1"
           "my" "log.csv"
           (storage.mkFileInfo "f2" "my_log.csv" 400 "text/csv" sampleNow "u1"
              "uploads/dsp_logs/u1/f2_my_log.csv")
           eq_refl eq_refl).
Defined.

Lemma accepted_uploads_are_stored_as_logs_witness :
  storage.subDirFor "text/csv" "report.pdf" = "dsp_logs".
Proof.
  apply (accepted_uploads_are_stored_as_logs "text/csv" "report.pdf" eq_refl).
  discriminate.
Defined.

(** * The win rate *)

(** ** Division of a float64 by itself

    [float64(n)] for a positive [n] below 2^63 is a finite non-zero number,
    and a finite non-zero number divided by itself is exactly 1; from the
    specification of the primitive operations in [SpecFloat]. *)

Lemma digits2_pos_size (p : positive) : SpecFloat.digits2_pos p = Pos.size p.
Proof. induction p as [p IH|p IH|]; cbn; rewrite ?IH; reflexivity. Qed.

Lemma size_bounds (p : positive) :
  2 ^ (Z.pos (Pos.size p) - 1) <= Z.pos p < 2 ^ Z.pos (Pos.size p).
Proof.
  induction p as [p IH|p IH|]; cbn [Pos.size].
  - rewrite Pos2Z.inj_succ.
    replace (Z.succ (Z.pos (Pos.size p)) - 1) with (Z.succ (Z.pos (Pos.size p) - 1)) by lia.
    rewrite !Z.pow_succ_r by lia. lia.
  - rewrite Pos2Z.inj_succ.
    replace (Z.succ (Z.pos (Pos.size p)) - 1) with (Z.succ (Z.pos (Pos.size p) - 1)) by lia.
    rewrite !Z.pow_succ_r by lia. lia.
  - cbn. lia.
Qed.

Lemma iter_pos_iter {A} (f : A -> A) (p : positive) :
  forall x, SpecFloat.iter_pos f p x = Pos.iter f x p.
Proof.
  induction p as [p IH|p IH|]; intros x; cbn [SpecFloat.iter_pos Pos.iter].
  - rewrite !IH, !Pos.iter_swap. reflexivity.
  - rewrite !IH. reflexivity.
  - reflexivity.
Qed.

Lemma shr_1_m (mrs : SpecFloat.shr_record) :
  0 <= SpecFloat.shr_m mrs ->
  SpecFloat.shr_m (SpecFloat.shr_1 mrs) = Z.div2 (SpecFloat.shr_m mrs).
Proof.
  destruct mrs as [[|[p|p|]|p] r s]; cbn; intros H; try reflexivity; lia.
Qed.

Lemma iter_shr_1_m (p : positive) :
  forall mrs,
  0 <= SpecFloat.shr_m mrs ->
  SpecFloat.shr_m (Pos.iter SpecFloat.shr_1 mrs p)
  = Z.shiftr (SpecFloat.shr_m mrs) (Z.pos p).
Proof.
  induction p as [|p IH] using Pos.peano_ind; intros mrs H.
  - cbn [Pos.iter]. rewrite shr_1_m by exact H. rewrite Z.div2_spec. reflexivity.
  - rewrite Pos.iter_succ.
    rewrite shr_1_m by (rewrite IH by exact H; apply Z.shiftr_nonneg; exact H).
    rewrite IH by exact H. rewrite Pos2Z.inj_succ, Z.div2_spec, Z.shiftr_shiftr by lia.
    reflexivity.
Qed.

Lemma shr_fexp_pos (p : positive) (e : Z) (l : SpecFloat.location) :
  let n := SpecFloat.fexp prec emax (Z.pos (Pos.size p) + e) - e in
  SpecFloat.shr_m (fst (SpecFloat.shr_fexp prec emax (Z.pos p) e l))
  = (if 0 <? n then Z.shiftr (Z.pos p) n else Z.pos p)
  /\ snd (SpecFloat.shr_fexp prec emax (Z.pos p) e l) = (if 0 <? n then e + n else e).
Proof.
  cbv zeta. unfold SpecFloat.shr_fexp. cbn [SpecFloat.Zdigits2].
  rewrite digits2_pos_size.
  destruct (SpecFloat.fexp prec emax (Z.pos (Pos.size p) + e) - e) as [|n|n] eqn:Hn;
    cbn [SpecFloat.shr fst snd Z.ltb Z.compare].
  - split; [destruct l as [|[]]; reflexivity|reflexivity].
  - rewrite iter_pos_iter, iter_shr_1_m by (destruct l as [|[]]; cbn; lia).
    split; [destruct l as [|[]]; reflexivity|reflexivity].
  - split; [destruct l as [|[]]; reflexivity|reflexivity].
Qed.

Lemma shiftr_pos_lt_size (p : positive) (n : Z) :
  0 <= n < Z.pos (Pos.size p) -> 0 < Z.shiftr (Z.pos p) n.
Proof.
  intros Hn. rewrite Z.shiftr_div_pow2 by lia.
  pose proof (size_bounds p) as [Hlo _].
  assert (2 ^ n <= 2 ^ (Z.pos (Pos.size p) - 1)) by (apply Z.pow_le_mono_r; lia).
  assert (0 < 2 ^ n) by (apply Z.pow_pos_nonneg; lia).
  apply Z.div_str_pos. lia.
Qed.

Lemma round_nearest_even_range (m : Z) (l : SpecFloat.location) :
  m <= SpecFloat.round_nearest_even m l <= m + 1.
Proof.
  unfold SpecFloat.round_nearest_even. destruct l as [|[]]; try lia.
  destruct (Z.even m); lia.
Qed.

Lemma binary_round_aux_finite (sx : bool) (p : positive) (e : Z) :
  Z.pos p < 2 ^ 64 -> -1074 <= e <= 0 ->
  exists m e',
    SpecFloat.binary_round_aux prec emax sx (Z.pos p) e SpecFloat.loc_Exact
    = S754_finite sx m e'.
Proof.
  intros Hp He. unfold SpecFloat.binary_round_aux.
  pose proof (shr_fexp_pos p e SpecFloat.loc_Exact) as H1. cbv zeta in H1.
  destruct (SpecFloat.shr_fexp prec emax (Z.pos p) e SpecFloat.loc_Exact) as [mrs1 e1].
  cbn [fst snd] in H1. destruct H1 as [Hm1 He1].
  pose proof (size_bounds p) as Hsize.
  assert (Z.pos (Pos.size p) <= 64) as Hd.
  { destruct (Z.le_gt_cases (Z.pos (Pos.size p)) 64) as [?|Hgt]; [assumption|].
    assert (2 ^ 64 <= 2 ^ (Z.pos (Pos.size p) - 1)) by (apply Z.pow_le_mono_r; lia). lia. }
  set (n1 := SpecFloat.fexp prec emax (Z.pos (Pos.size p) + e) - e) in *.
  assert (n1 < Z.pos (Pos.size p) /\ n1 <= 11) as [Hn1 Hn1'].
  { subst n1. unfold SpecFloat.fexp, SpecFloat.emin, prec, emax. lia. }
  assert (0 < SpecFloat.shr_m mrs1 <= Z.pos p /\ e <= e1 <= 11) as [Hm1' He1'].
  { rewrite Hm1, He1. destruct (Z.ltb_spec 0 n1) as [Hpos|Hle].
    - split; [|lia]. split; [apply shiftr_pos_lt_size; lia|].
      rewrite Z.shiftr_div_pow2 by lia.
      apply Z.div_le_upper_bound; [apply Z.pow_pos_nonneg; lia|].
      pose proof (Z.pow_pos_nonneg 2 n1 ltac:(lia) ltac:(lia)). nia.
    - lia. }
  pose proof (round_nearest_even_range (SpecFloat.shr_m mrs1)
                (SpecFloat.loc_of_shr_record mrs1)) as Hround.
  destruct (SpecFloat.round_nearest_even _ _) as [|p'|p'] eqn:Hp'; try lia.
  pose proof (shr_fexp_pos p' e1 SpecFloat.loc_Exact) as H2. cbv zeta in H2.
  destruct (SpecFloat.shr_fexp prec emax (Z.pos p') e1 SpecFloat.loc_Exact) as [mrs2 e2].
  cbn [fst snd] in H2. destruct H2 as [Hm2 He2].
  pose proof (size_bounds p') as Hsize'.
  assert (Z.pos (Pos.size p') <= 65) as Hd'.
  { destruct (Z.le_gt_cases (Z.pos (Pos.size p')) 65) as [?|Hgt]; [assumption|].
    assert (2 ^ 65 <= 2 ^ (Z.pos (Pos.size p') - 1)) by (apply Z.pow_le_mono_r; lia).
    assert (2 ^ 65 = 2 * 2 ^ 64) by reflexivity. lia. }
  set (n2 := SpecFloat.fexp prec emax (Z.pos (Pos.size p') + e1) - e1) in *.
  assert (n2 < Z.pos (Pos.size p') /\ n2 <= 1100) as [Hn2 Hn2'].
  { subst n2. unfold SpecFloat.fexp, SpecFloat.emin, prec, emax. lia. }
  assert (0 < SpecFloat.shr_m mrs2 /\ e2 <= 971) as [Hm2' He2'].
  { rewrite Hm2, He2. unfold SpecFloat.fexp, SpecFloat.emin, prec, emax in n2.
    destruct (Z.ltb_spec 0 n2) as [Hpos|Hle].
    - split; [apply shiftr_pos_lt_size; lia|]. subst n2. lia.
    - lia. }
  destruct (SpecFloat.shr_m mrs2) as [|m|m]; try lia.
  unfold prec, emax. destruct (Z.leb_spec e2 (1024 - 53)); [eauto|lia].
Qed.

Lemma iter_xO (p : positive) (k : positive) :
  Z.pos (Pos.iter xO p k) = Z.pos p * 2 ^ Z.pos k.
Proof.
  induction k as [|k IH] using Pos.peano_ind.
  - cbn [Pos.iter]. lia.
  - rewrite Pos.iter_succ, Pos2Z.inj_succ, Z.pow_succ_r by lia.
    rewrite Pos2Z.inj_xO, IH. lia.
Qed.

Lemma of_uint63_finite (n : int) :
  0 < Uint63.to_Z n ->
  exists m e, Prim2SF (PrimFloat.of_uint63 n) = S754_finite false m e.
Proof.
  intros Hn. rewrite FloatAxioms.of_uint63_spec.
  pose proof (Uint63.to_Z_bounded n) as Hb.
  destruct (Uint63.to_Z n) as [|p|p]; try lia.
  cbn [SpecFloat.binary_normalize]. unfold SpecFloat.binary_round.
  rewrite digits2_pos_size.
  pose proof (size_bounds p) as Hsize.
  assert (Z.pos p < 2 ^ 63) as Hp by (change wB with (2 ^ 63) in Hb; lia).
  unfold SpecFloat.shl_align.
  set (d := Z.pos (Pos.size p)) in *.
  assert (SpecFloat.fexp prec emax (d + 0) = d - 53) as ->
    by (unfold SpecFloat.fexp, SpecFloat.emin, prec, emax; lia).
  destruct (d - 53 - 0) as [|k|k] eqn:Hk.
  - apply binary_round_aux_finite; lia.
  - apply binary_round_aux_finite; lia.
  - apply binary_round_aux_finite.
    + rewrite iter_xO.
      assert (2 ^ d * 2 ^ Z.pos k = 2 ^ 53) as Hpow
        by (rewrite <- Z.pow_add_r by lia; f_equal; lia).
      assert (0 < 2 ^ Z.pos k) by (apply Z.pow_pos_nonneg; lia).
      assert (2 ^ 53 < 2 ^ 64) by reflexivity. nia.
    + lia.
Qed.

Lemma div_self (x : float) (s : bool) (m : positive) (e : Z) :
  Prim2SF x = S754_finite s m e -> (x / x)%float = 1%float.
Proof.
  intros Hx. apply Prim2SF_inj. rewrite FloatAxioms.div_spec, Hx.
  unfold SF64div, SpecFloat.SFdiv, SpecFloat.SFdiv_core_binary.
  rewrite !Z.sub_diag.
  change (SpecFloat.fexp prec emax 0) with (-53).
  change (Z.min (-53) 0) with (-53).
  change (0 - -53) with 53. cbv iota.
  assert (Z.div_eucl (Z.shiftl (Z.pos m) 53) (Z.pos m) = (2 ^ 53, 0)) as ->.
  { rewrite Z.shiftl_mul_pow2 by lia.
    pose proof (Z.div_eucl_eq (Z.pos m * 2 ^ 53) (Z.pos m) ltac:(lia)) as Heq.
    pose proof (Z.mod_pos_bound (Z.pos m * 2 ^ 53) (Z.pos m) ltac:(lia)) as Hmod.
    unfold Z.modulo in Hmod.
    destruct (Z.div_eucl (Z.pos m * 2 ^ 53) (Z.pos m)) as [q r].
    assert (q = 2 ^ 53) by nia. subst q. f_equal. lia. }
  assert (SpecFloat.new_location (Z.pos m) 0 = SpecFloat.loc_Exact) as ->.
  { unfold SpecFloat.new_location. destruct (Z.even (Z.pos m)); reflexivity. }
  destruct s; vm_compute; reflexivity.
Qed.

Lemma float64_of_int_div_self (n : Z) :
  0 < n < 2 ^ 63 -> (float64_of_int n / float64_of_int n)%float = 1%float.
Proof.
  intros Hn. unfold float64_of_int.
  destruct (Z.leb_spec 0 n) as [_|?]; [|lia].
  destruct (of_uint63_finite (Uint63.of_Z n)) as (m & e & Hfin).
  - rewrite Uint63.of_Z_spec. change wB with (2 ^ 63). rewrite Z.mod_small; lia.
  - exact (div_self _ _ _ _ Hfin).
Qed.

(** X21. The average win rate of a returned summary does not depend on
    the log: it is exactly 100 when the file has a data row, and 0 when it
    has none. (Impressions and records are counted by the same statement of
    the loop, and a float64 divided by itself is 1.) *)
Theorem win_rate_is_constant (header : list string) (rows : list (list string))
  colMap summary :
  resolveColumns requiredCols (indexHeader header 0 ∅) = inr colMap ->
  ParseBeeswaxLog (csv.Row header :: map csv.Row rows) = inr summary ->
  Z.of_nat (List.length rows) < 2 ^ 63 ->
  AverageWinRate summary = match rows with [] => 0%float | _ :: _ => 100%float end.
Proof.
  intros Hres Hparse Hlen.
  rewrite (ParseBeeswaxLog_rows_inv header rows colMap summary Hres Hparse).
  cbn [finalize AverageWinRate].
  destruct (aggregate_counts colMap rows initialSummary) as [Hrec Himp];
    [cbn; lia|cbn; lia|reflexivity|].
  cbn [initialSummary TotalRecords] in Hrec, Himp. rewrite Z.add_0_l in Hrec, Himp.
  rewrite Hrec, Himp.
  destruct (aggregate_CTR_untouched colMap rows initialSummary) as (_ & _ & ->).
  destruct rows as [|r rows]; [reflexivity|].
  destruct (Z.ltb_spec 0 (Z.of_nat (List.length (r :: rows)))) as [Hpos|Hle];
    [|cbn [List.length] in Hle; lia].
  rewrite float64_of_int_div_self by lia. reflexivity.
Qed.

Lemma win_rate_is_constant_witness :
  exists summary,
    ParseBeeswaxLog sampleInput = inr summary /\ AverageWinRate summary = 100%float.
Proof.
  destruct (ParseBeeswaxLog sampleInput) as [err|summary] eqn:Hparse;
    [vm_compute in Hparse; discriminate|].
  exists summary. split; [reflexivity|].
  exact (win_rate_is_constant sampleHeader [sampleRow1; sampleRow2] sampleColMap summary
           sampleColMap_resolved Hparse ltac:(cbn; lia)).
Defined.

(** * The cells a row is read from *)

Lemma resolved_required (header : list string) colMap :
  resolveColumns requiredCols (indexHeader header 0 ∅) = inr colMap ->
  forall col, In col requiredCols -> is_Some (colMap !! col).
Proof.
  intros Hres.
  pose proof (resolveColumns_spec header requiredCols _
                (covers_indexHeader header) requiredCols_upper) as Hspec.
  revert Hspec.
  destruct (List.filter _ requiredCols); intros Hspec; [|congruence].
  destruct Hspec as (colMap' & Hres' & _ & Hreq & _).
  rewrite Hres in Hres'. injection Hres' as <-. exact Hreq.
Qed.

(** X22. In a parse that returns a summary, the guard of [getValueSafely]
    never fires: for every data row and every required column, the column
    map holds an index inside the row, the header cell at that index is the
    column's name up to letter case, and the value read is the row's cell at
    that index. *)
Theorem cells_are_read_from_matching_columns (header : list string)
  (rows : list (list string)) colMap summary :
  resolveColumns requiredCols (indexHeader header 0 ∅) = inr colMap ->
  ParseBeeswaxLog (csv.Row header :: map csv.Row rows) = inr summary ->
  forall record col,
  In record rows -> In col requiredCols ->
  exists (i : nat) (h : string),
    colMap !! col = Some (Z.of_nat i)
    /\ (i < List.length record)%nat
    /\ header !! i = Some h
    /\ strings.ToUpper h = col
    /\ getValueSafely colMap record col = nth i record "".
Proof.
  intros Hres Hparse record col Hrecord Hcol.
  destruct (parsed_rows_width header rows colMap summary Hres Hparse) as [_ Hwidth].
  rewrite Forall_forall in Hwidth.
  specialize (Hwidth record ltac:(apply list_elem_of_In; exact Hrecord)).
  destruct (resolved_required header colMap Hres col Hcol) as [idx Hidx].
  destruct (resolved_validHeader header colMap Hres) as [_ [_ Hval]].
  destruct (Hval col idx Hidx) as (H0 & h & Hh & Hupper & _).
  pose proof (lookup_lt_Some _ _ _ Hh) as Hlt.
  exists (Z.to_nat idx), h. rewrite Z2Nat.id by exact H0.
  split; [exact Hidx|]. split; [lia|]. split; [exact Hh|]. split.
  - rewrite Hupper. pose proof requiredCols_upper as Hup.
    rewrite Forall_forall in Hup. apply Hup, list_elem_of_In, Hcol.
  - unfold getValueSafely. rewrite Hidx.
    destruct (Z.leb_spec (Z.of_nat (List.length record)) idx); [lia|reflexivity].
Qed.

Lemma cells_are_read_from_matching_columns_witness :
  exists (i : nat) (h : string),
    sampleColMap !! "CLICKS" = Some (Z.of_nat i)
    /\ (i < List.length sampleRow1)%nat
    /\ sampleHeader !! i = Some h
    /\ strings.ToUpper h = "CLICKS"
    /\ getValueSafely sampleColMap sampleRow1 "CLICKS" = nth i sampleRow1 "".
Proof.
  destruct (ParseBeeswaxLog sampleInput) as [err|summary] eqn:Hparse;
    [vm_compute in Hparse; discriminate|].
  apply (cells_are_read_from_matching_columns sampleHeader [sampleRow1; sampleRow2]
           sampleColMap summary sampleColMap_resolved Hparse sampleRow1 "CLICKS").
  - left. reflexivity.
  - vm_compute. tauto.
Defined.

(** * Bid times in the layouts of the source *)

(** The value of a digit byte. *)
Definition digitValue (c : ascii) : Z := byte_of c - 48.

Lemma digit_facts (c : ascii) :
  isDigitByte c = true ->
  0 <= digitValue c <= 9
  /\ Ascii.eqb c "-" = false /\ Ascii.eqb c "+" = false /\ Ascii.eqb c " " = false.
Proof.
  destruct c as [[] [] [] [] [] [] [] []]; try discriminate; intros _;
    vm_compute; intuition congruence.
Qed.

Lemma digitChar_digit (d : Z) :
  isDigitByte (time.digitChar d) = true /\ digitValue (time.digitChar d) = d mod 10.
Proof.
  unfold time.digitChar.
  assert (0 <= d mod 10 < 10) as H by (apply Z.mod_pos_bound; lia).
  assert (d mod 10 = 0 \/ d mod 10 = 1 \/ d mod 10 = 2 \/ d mod 10 = 3 \/ d mod 10 = 4
          \/ d mod 10 = 5 \/ d mod 10 = 6 \/ d mod 10 = 7 \/ d mod 10 = 8 \/ d mod 10 = 9)
    as Hc by lia.
  repeat destruct Hc as [Hc|Hc]; rewrite Hc; split; reflexivity.
Qed.

Lemma getnum_two (c1 c0 : ascii) (rest : string) (fixed : bool) :
  isDigitByte c1 = true -> isDigitByte c0 = true ->
  time.getnum (String c1 (String c0 rest)) fixed
  = Some (digitValue c1 * 10 + digitValue c0, rest).
Proof. intros H1 H0. unfold time.getnum. rewrite H1, H0. reflexivity. Qed.

Lemma atoi_four (c3 c2 c1 c0 : ascii) :
  isDigitByte c3 = true -> isDigitByte c2 = true ->
  isDigitByte c1 = true -> isDigitByte c0 = true ->
  time.atoi (String c3 (String c2 (String c1 (String c0 ""))))
  = Some (((digitValue c3 * 10 + digitValue c2) * 10 + digitValue c1) * 10
          + digitValue c0).
Proof.
  intros H3 H2 H1 H0.
  destruct (digit_facts c3 H3) as (R3 & Hm & Hp & _).
  destruct (digit_facts c2 H2) as (R2 & _). destruct (digit_facts c1 H1) as (R1 & _).
  destruct (digit_facts c0 H0) as (R0 & _).
  unfold time.atoi. rewrite Hm, Hp. cbn [time.leadingInt]. rewrite H3, H2, H1, H0.
  fold (digitValue c3) (digitValue c2) (digitValue c1) (digitValue c0).
  change (2 ^ 63 / 10) with 922337203685477580. change (2 ^ 63) with 9223372036854775808.
  change (0 * 10 + digitValue c3) with (digitValue c3).
  repeat match goal with
  | |- context [?a <? ?b] => destruct (Z.ltb_spec a b); [lia|]
  end.
  rewrite wrap64_small by (change (2 ^ 63) with 9223372036854775808; lia).
  f_equal. 
Qed.

Lemma atoi_three (c2 c1 c0 : ascii) :
  isDigitByte c2 = true -> isDigitByte c1 = true -> isDigitByte c0 = true ->
  time.atoi (String c2 (String c1 (String c0 "")))
  = Some ((digitValue c2 * 10 + digitValue c1) * 10 + digitValue c0).
Proof.
  intros H2 H1 H0.
  destruct (digit_facts c2 H2) as (R2 & Hm & Hp & _).
  destruct (digit_facts c1 H1) as (R1 & _). destruct (digit_facts c0 H0) as (R0 & _).
  unfold time.atoi. rewrite Hm, Hp. cbn [time.leadingInt]. rewrite H2, H1, H0.
  fold (digitValue c2) (digitValue c1) (digitValue c0).
  change (2 ^ 63 / 10) with 922337203685477580. change (2 ^ 63) with 9223372036854775808.
  change (0 * 10 + digitValue c2) with (digitValue c2).
  repeat match goal with
  | |- context [?a <? ?b] => destruct (Z.ltb_spec a b); [lia|]
  end.
  rewrite wrap64_small by (change (2 ^ 63) with 9223372036854775808; lia).
  reflexivity.
Qed.

(** The text of a civil time in the layout "2006-01-02 15:04:05", from its
    fourteen digits, followed by [rest]. *)
Definition stampOf (y3 y2 y1 y0 m1 m0 d1 d0 h1 h0 i1 i0 s1 s0 : ascii)
  (rest : string) : string :=
  String y3 (String y2 (String y1 (String y0 (String "-"
  (String m1 (String m0 (String "-"
  (String d1 (String d0 (String " "
  (String h1 (String h0 (String ":"
  (String i1 (String i0 (String ":"
  (String s1 (String s0 rest)))))))))))))))))).

Lemma parseChunks_stamp (y3 y2 y1 y0 m1 m0 d1 d0 h1 h0 i1 i0 s1 s0 : ascii)
  (rest : string) (tail : time.Layout) :
  let year := ((digitValue y3 * 10 + digitValue y2) * 10 + digitValue y1) * 10
              + digitValue y0 in
  let month := digitValue m1 * 10 + digitValue m0 in
  let day := digitValue d1 * 10 + digitValue d0 in
  let hour := digitValue h1 * 10 + digitValue h0 in
  let minute := digitValue i1 * 10 + digitValue i0 in
  let second := digitValue s1 * 10 + digitValue s0 in
  Forall (fun c => isDigitByte c = true)
    [y3; y2; y1; y0; m1; m0; d1; d0; h1; h0; i1; i0; s1; s0] ->
  1 <= month <= 12 -> hour < 24 -> minute < 60 -> second < 60 ->
  rest = "" \/ time.isFrac tail = true ->
  forall t,
  time.parseChunks (time.layoutSeconds ++ tail)%list
    (stampOf y3 y2 y1 y0 m1 m0 d1 d0 h1 h0 i1 i0 s1 s0 rest) t
  = time.parseChunks tail rest
      (time.Date year month day hour minute second (time.Nanosecond t)).
Proof.
  intros year month day hour minute second Hd Hmonth Hhour Hminute Hsecond Hrest t.
  repeat match goal with
  | H : Forall _ (_ :: _) |- _ => apply Forall_cons in H as [? H]
  end.
  assert (forall c, isDigitByte c = true -> 0 <= digitValue c <= 9) as Hrange
    by (intros c Hc; apply digit_facts, Hc).
  pose proof (Hrange m1 ltac:(assumption)). pose proof (Hrange m0 ltac:(assumption)).
  pose proof (Hrange h1 ltac:(assumption)). pose proof (Hrange h0 ltac:(assumption)).
  pose proof (Hrange i1 ltac:(assumption)). pose proof (Hrange i0 ltac:(assumption)).
  pose proof (Hrange s1 ltac:(assumption)). pose proof (Hrange s0 ltac:(assumption)).
  assert (Ascii.eqb h1 " " = false) as Hsp by (apply digit_facts; assumption).
  unfold stampOf, time.layoutSeconds.
  cbn [app time.parseChunks time.skip time.skipLoop String.length time.isFrac].
  cbn [time.parseStd String.length Nat.ltb Nat.leb orb negb time.isDigit String.get].
  match goal with H : isDigitByte y3 = true |- _ => rewrite H end.
  cbn [negb orb String.substring]. rewrite atoi_four by assumption. fold year.
  replace (time.drop 4 _)
    with (String "-" (String m1 (String m0 (String "-" (String d1 (String d0 (String " "
          (String h1 (String h0 (String ":" (String i1 (String i0 (String ":"
          (String s1 (String s0 rest))))))))))))))).
  2:{ unfold time.drop. cbn [String.length Nat.sub String.substring].
      do 15 f_equal. symmetry. apply substring_all. }
  cbn [Ascii.eqb Bool.eqb time.skipLoop time.cutspace].
  rewrite !(getnum_two m1 m0) by assumption. fold month.
  destruct (Z.leb_spec month 0); [lia|]. destruct (Z.ltb_spec 12 month); [lia|].
  cbn [orb time.Year time.Month time.Day time.Hour time.Minute time.Second
       time.Nanosecond].
  rewrite ?Ascii.eqb_refl.
  rewrite !(getnum_two d1 d0) by assumption. fold day.
  cbn [time.Year time.Month time.Day time.Hour time.Minute time.Second
       time.Nanosecond time.cutspace].
  rewrite ?Ascii.eqb_refl, ?Hsp.
  rewrite !(getnum_two h1 h0) by assumption. fold hour.
  destruct (Z.ltb_spec hour 0); [lia|]. destruct (Z.leb_spec 24 hour); [lia|].
  cbn [orb time.Year time.Month time.Day time.Hour time.Minute time.Second
       time.Nanosecond].
  rewrite ?Ascii.eqb_refl.
  rewrite !(getnum_two i1 i0) by assumption. fold minute.
  destruct (Z.ltb_spec minute 0); [lia|]. destruct (Z.leb_spec 60 minute); [lia|].
  cbn [orb time.Year time.Month time.Day time.Hour time.Minute time.Second
       time.Nanosecond].
  rewrite ?Ascii.eqb_refl.
  rewrite !(getnum_two s1 s0) by assumption. fold second.
  destruct (Z.ltb_spec second 0); [lia|]. destruct (Z.leb_spec 60 second); [lia|].
  cbn [orb time.Year time.Month time.Day time.Hour time.Minute time.Second
       time.Nanosecond].
  destruct Hrest as [->| ->]; [reflexivity|].
  destruct rest as [|c0 rest]; [reflexivity|].
  rewrite andb_false_r. reflexivity.
Qed.

Lemma four_digits (y : Z) :
  0 <= y <= 9999 ->
  (((y / 10 / 10 / 10) mod 10 * 10 + (y / 10 / 10) mod 10) * 10 + (y / 10) mod 10) * 10
  + y mod 10 = y.
Proof. intros H. Z.div_mod_to_equations. lia. Qed.

Lemma three_digits (v : Z) :
  0 <= v <= 999 ->
  ((v / 10 / 10) mod 10 * 10 + (v / 10) mod 10) * 10 + v mod 10 = v.
Proof. intros H. Z.div_mod_to_equations. lia. Qed.

Lemma two_digits (v : Z) : 0 <= v <= 99 -> (v / 10) mod 10 * 10 + v mod 10 = v.
Proof. intros H. Z.div_mod_to_equations. lia. Qed.

Lemma daysIn_le_31 (m y : Z) : 1 <= m <= 12 -> time.daysIn m y <= 31.
Proof.
  intros Hm. unfold time.daysIn. destruct ((m =? 2) && time.isLeap y); [lia|].
  assert (m = 1 \/ m = 2 \/ m = 3 \/ m = 4 \/ m = 5 \/ m = 6 \/ m = 7 \/ m = 8
          \/ m = 9 \/ m = 10 \/ m = 11 \/ m = 12) as Hc by lia.
  repeat destruct Hc as [Hc|Hc]; subst m; vm_compute; discriminate.
Qed.

(** The text of a civil time in the layout "2006-01-02 15:04:05". *)
Definition stamp (t : time.Time) : string :=
  time.FormatHour t ++ ":" ++ time.appendInt 2 (time.Minute t) ""
  ++ ":" ++ time.appendInt 2 (time.Second t) "".

(** The same with the milliseconds, in the layout "2006-01-02 15:04:05.000". *)
Definition stampMillis (t : time.Time) : string :=
  stamp t ++ "." ++ time.appendInt 3 (time.Nanosecond t / 1000000) "".

(** A civil time as [time.Parse] accepts it. *)
Definition civil (t : time.Time) : Prop :=
  0 <= time.Year t <= 9999 /\ 1 <= time.Month t <= 12
  /\ 1 <= time.Day t <= time.daysIn (time.Month t) (time.Year t)
  /\ 0 <= time.Hour t < 24 /\ 0 <= time.Minute t < 60 /\ 0 <= time.Second t < 60.

Lemma stamp_chars (t : time.Time) (rest : string) :
  stamp t ++ rest
  = stampOf (time.digitChar (time.Year t / 10 / 10 / 10))
      (time.digitChar (time.Year t / 10 / 10))
      (time.digitChar (time.Year t / 10)) (time.digitChar (time.Year t))
      (time.digitChar (time.Month t / 10)) (time.digitChar (time.Month t))
      (time.digitChar (time.Day t / 10)) (time.digitChar (time.Day t))
      (time.digitChar (time.Hour t / 10)) (time.digitChar (time.Hour t))
      (time.digitChar (time.Minute t / 10)) (time.digitChar (time.Minute t))
      (time.digitChar (time.Second t / 10)) (time.digitChar (time.Second t)) rest.
Proof. reflexivity. Qed.

Lemma parseChunks_civil (t : time.Time) (rest : string) (tail : time.Layout) :
  civil t ->
  rest = "" \/ time.isFrac tail = true ->
  forall t0,
  time.parseChunks (time.layoutSeconds ++ tail)%list (stamp t ++ rest) t0
  = time.parseChunks tail rest
      (time.Date (time.Year t) (time.Month t) (time.Day t) (time.Hour t)
         (time.Minute t) (time.Second t) (time.Nanosecond t0)).
Proof.
  intros (Hy & Hmo & Hd & Hh & Hmi & Hs) Hrest t0.
  pose proof (daysIn_le_31 _ (time.Year t) Hmo) as H31.
  rewrite stamp_chars.
  assert (forall x, digitValue (time.digitChar x) = x mod 10) as Hval
    by (intros x; apply digitChar_digit).
  rewrite parseChunks_stamp; rewrite ?Hval, ?four_digits, ?two_digits by lia;
    try lia; try assumption; [reflexivity|].
  repeat constructor; apply digitChar_digit.
Qed.

(** X23. A BID_TIME cell that spells a civil time (year 0 to 9999, a day
    that exists in its month, hour below 24, minute and second below 60) as
    "YYYY-MM-DD HH:MM:SS", or with its milliseconds as
    "YYYY-MM-DD HH:MM:SS.mmm", is read back as exactly that time; and the
    hour key under which the row is counted is the first 13 characters of
    the cell. *)
Theorem canonical_bid_time (t : time.Time) :
  civil t ->
  (time.Nanosecond t = 0 ->
   parseBidTime (stamp t) = t
   /\ time.FormatHour (parseBidTime (stamp t)) = String.substring 0 13 (stamp t))
  /\ (0 <= time.Nanosecond t < 1000000000 -> time.Nanosecond t mod 1000000 = 0 ->
      parseBidTime (stampMillis t) = t
      /\ time.FormatHour (parseBidTime (stampMillis t))
         = String.substring 0 13 (stampMillis t)).
Proof.
  intros Hcivil. pose proof Hcivil as (Hy & Hmo & Hd & Hh & Hmi & Hs).
  destruct t as [y mo d h mi s ns].
  cbn [time.Year time.Month time.Day time.Hour time.Minute time.Second
       time.Nanosecond] in *.
  split.
  - intros ->.
    assert (parseBidTime (stamp (time.Date y mo d h mi s 0)) = time.Date y mo d h mi s 0)
      as Hparse.
    { unfold parseBidTime, time.Parse, time.layoutMillis.
      replace (String.eqb (stamp (time.Date y mo d h mi s 0)) "") with false
        by reflexivity.
      replace (stamp (time.Date y mo d h mi s 0))
        with (stamp (time.Date y mo d h mi s 0) ++ "")
        by (rewrite stamp_chars; reflexivity).
      rewrite (parseChunks_civil _ "" _ Hcivil (or_introl eq_refl)).
      cbn [time.parseChunks time.skip time.skipLoop time.parseStd String.length
           Nat.ltb Nat.leb Nat.add fst].
      rewrite <- (app_nil_r time.layoutSeconds).
      rewrite (parseChunks_civil _ "" [] Hcivil (or_introl eq_refl)).
      cbn [time.parseChunks time.Year time.Month time.Day time.Hour time.Minute
           time.Second time.Nanosecond].
      destruct (Z.ltb_spec d 1); [lia|].
      destruct (Z.ltb_spec (time.daysIn mo y) d); [lia|]. reflexivity. }
    split; [exact Hparse|]. rewrite Hparse. reflexivity.
  - intros Hns Hms.
    assert (parseBidTime (stampMillis (time.Date y mo d h mi s ns))
            = time.Date y mo d h mi s ns) as Hparse.
    { unfold parseBidTime, time.Parse, time.layoutMillis, stampMillis.
      cbn [time.Nanosecond].
      replace (String.eqb _ "") with false by reflexivity.
      rewrite (parseChunks_civil _ _ [("", time.stdFracSecond0 3)] Hcivil
               (or_intror eq_refl)).
      cbn [time.Year time.Month time.Day time.Hour time.Minute time.Second
           time.Nanosecond].
      set (ms := ns / 1000000).
      assert (0 <= ms <= 999) as Hrange by (subst ms; Z.div_mod_to_equations; lia).
      change ("." ++ time.appendInt 3 ms "")
        with (String "." (String (time.digitChar (ms / 10 / 10))
                (String (time.digitChar (ms / 10)) (String (time.digitChar ms) "")))).
      cbn [time.parseChunks time.skip time.skipLoop time.parseStd String.length
           Nat.ltb Nat.leb Nat.add time.parseNanoseconds time.commaOrPeriod
           Nat.min Nat.sub String.substring].
      change (Ascii.eqb "." ".") with true. cbn [orb].
      rewrite atoi_three by apply digitChar_digit.
      rewrite !(proj2 (digitChar_digit _)), three_digits by lia.
      destruct (Z.ltb_spec ms 0); [lia|].
      change (10 ^ Z.of_nat 6) with 1000000.
      rewrite wrap64_small by (change (2 ^ 63) with 9223372036854775808; lia).
      replace (ms * 1000000) with ns by (subst ms; Z.div_mod_to_equations; lia).
      change (time.commaOrPeriod ".") with true. cbv iota.
      cbn [time.drop String.length Nat.sub String.substring time.parseChunks
           time.Year time.Month time.Day time.Hour time.Minute time.Second
           time.Nanosecond].
      destruct (Z.ltb_spec d 1); [lia|].
      destruct (Z.ltb_spec (time.daysIn mo y) d); [lia|]. reflexivity. }
    split; [exact Hparse|]. rewrite Hparse. reflexivity.
Qed.

Lemma canonical_bid_time_witness :
  parseBidTime "2024-07-01 12:30:45" = time.Date 2024 7 1 12 30 45 0
  /\ parseBidTime "2024-07-01 12:30:45.250" = time.Date 2024 7 1 12 30 45 250000000
  /\ time.FormatHour (parseBidTime "2024-07-01 12:30:45.250") = "2024-07-01 12".
Proof.
  assert (civil (time.Date 2024 7 1 12 30 45 0)) as Hcivil
    by (unfold civil; cbn; repeat split; lia || (vm_compute; discriminate)).
  assert (civil (time.Date 2024 7 1 12 30 45 250000000)) as Hcivil'
    by (unfold civil; cbn; repeat split; lia || (vm_compute; discriminate)).
  destruct (canonical_bid_time _ Hcivil) as [Hsec _].
  destruct (canonical_bid_time _ Hcivil') as [_ Hms].
  split; [exact (proj1 (Hsec eq_refl))|].
  split; [exact (proj1 (Hms ltac:(cbn; lia) eq_refl))|].
  exact (proj2 (Hms ltac:(cbn; lia) eq_refl)).
Defined.
